(** * Vehicle-registration dashboard: table normalizer and period comparator

    A shallow embedding of [src/app.py]: the loader [load_tables], the
    normalizer [get_data] and the three comparison blocks of the script
    (monthly MoM / January YoM, quarter-over-quarter, year-over-year),
    followed by the properties of the specification that concern them.

    Conventions of the embedding
    - a pandas frame is a list of labelled columns, in column order;
    - a raw cell is kept as the text [astype(str)] yields for it;
    - integers are unbounded ([Z]) and a 64-bit float is the rational it
      denotes ([Q]); the percentages of the comparison tables are rounded
      to 64-bit floats operation by operation ([Pd.binary64]), as Python
      evaluates them;
    - the conversion of a text cell is embedded cell by cell and without
      the 64-bit range: it agrees with the library on the cells the
      statements name, texts without a digit and integers of at most 15
      digits, which a 64-bit float holds exactly;
    - the key column of a table is the text of its cells: the joins are
      embedded for key columns that [read_html] types as text;
    - an exception is a value of [exn], carried by [result]. *)

From Stdlib Require Import List String Ascii Bool Arith ZArith QArith Qabs Lia.
From Stdlib Require Import Permutation DecimalString DecimalPos.
Import ListNotations.

Local Open Scope string_scope.
Local Open Scope Z_scope.

Set Implicit Arguments.

(* ===================================================================== *)
(** ** Exceptions and results *)
(* ===================================================================== *)

Inductive exn : Type :=
| LengthMismatch (expected new : nat)  (* ValueError of [df.columns = ...] *)
| IntCastingNaNError                   (* [astype(int)] on a non-finite value *)
| IndexError                           (* position out of range *)
| KeyError (name : string)             (* column label not in the frame *)
| TypeError (name : string)            (* arithmetic on a text column *)
| ValueError_not_in_list (x : string). (* [list.index] *)

Inductive result (A : Type) : Type :=
| Ok (a : A)
| Raise (e : exn).

Arguments Ok {A} a.
Arguments Raise {A} e.

Definition bind {A B : Type} (r : result A) (k : A -> result B) : result B :=
  match r with
  | Ok a => k a
  | Raise e => Raise e
  end.

Notation "x <- r ;; k" := (bind r (fun x => k))
  (at level 61, r at next level, right associativity).

Fixpoint mapM {A B : Type} (f : A -> result B) (l : list A) : result (list B) :=
  match l with
  | [] => Ok []
  | a :: l' => b <- f a ;; bs <- mapM f l' ;; Ok (b :: bs)
  end.

(* ===================================================================== *)
(** ** Python strings *)
(* ===================================================================== *)

Module Py.

Definition chars (s : string) : list ascii := list_ascii_of_string s.
Definition str (l : list ascii) : string := string_of_list_ascii l.

Definition code (c : ascii) : nat := nat_of_ascii c.

(** [s.replace(old, new)] for one-character [old], [new] a string. *)
Definition replace (old : ascii) (new : string) (s : string) : string :=
  str (flat_map (fun c => if Ascii.eqb c old then chars new else [c]) (chars s)).

(** [s.lower()] on ASCII letters. *)
Definition lower_char (c : ascii) : ascii :=
  if ((65 <=? code c) && (code c <=? 90))%nat
  then ascii_of_nat (code c + 32) else c.

Definition lower (s : string) : string := str (map lower_char (chars s)).

(** [str(n)] for an integer. *)
Definition str_of_int (z : Z) : string := NilZero.string_of_int (Z.to_int z).

(** [x in xs] for strings. *)
Definition mem (x : string) (xs : list string) : bool :=
  existsb (String.eqb x) xs.

(** [xs.index(x)]. *)
Fixpoint index (x : string) (xs : list string) : result nat :=
  match xs with
  | [] => Raise (ValueError_not_in_list x)
  | y :: ys => if String.eqb y x then Ok O
               else i <- index x ys ;; Ok (S i)
  end.

End Py.

(* ===================================================================== *)
(** ** pandas numbers: [to_numeric], [fillna], [astype(int)], [:.2f] *)
(* ===================================================================== *)

Module Pd.

(** A float64 value: a finite number, an infinity or NaN. *)
Inductive float64 : Type :=
| Finite (q : Q)
| Inf (negative : bool)
| NaN.

Definition is_digit (c : ascii) : bool :=
  ((48 <=? Py.code c) && (Py.code c <=? 57))%nat.

(** The blanks the number scanner skips: space, \t \n \v \f \r. *)
Definition is_space (c : ascii) : bool :=
  (Py.code c =? 32)%nat || ((9 <=? Py.code c) && (Py.code c <=? 13))%nat.

Fixpoint skip_spaces (l : list ascii) : list ascii :=
  match l with
  | c :: l' => if is_space c then skip_spaces l' else l
  | [] => []
  end.

(** Longest prefix of digits, and what follows it. *)
Fixpoint span_digits (l : list ascii) : list ascii * list ascii :=
  match l with
  | c :: l' =>
      if is_digit c
      then let (ds, rest) := span_digits l' in (c :: ds, rest)
      else ([], l)
  | [] => ([], [])
  end.

Definition digit_value (c : ascii) : Z := Z.of_nat (Py.code c) - 48.

Definition digits_value (ds : list ascii) : Z :=
  fold_left (fun acc c => acc * 10 + digit_value c) ds 0.

Definition take_sign (l : list ascii) : bool * list ascii :=
  match l with
  | "-"%char :: l' => (true, l')
  | "+"%char :: l' => (false, l')
  | _ => (false, l)
  end.

(** m * 10^e as a rational. *)
Definition scale10 (m e : Z) : Q :=
  if 0 <=? e then inject_Z (m * 10 ^ e)
  else Qmake m (Z.to_pos (10 ^ (- e))).

(** The decimal scanner behind [to_numeric] on a text cell: blanks, a
    sign, digits with an optional point, an optional exponent (dropped
    again when no digit follows the [e]), blanks, end of text. *)
Definition scan_decimal (l : list ascii) : option Q :=
  let l1 := skip_spaces l in
  let (neg, l2) := take_sign l1 in
  let (ip, l3) := span_digits l2 in
  let (fp, l4) :=
    match l3 with
    | "."%char :: l3' => span_digits l3'
    | _ => ([], l3)
    end in
  if (List.length ip + List.length fp =? 0)%nat then None
  else
    let (ex, l5) :=
      match l4 with
      | c :: l4' =>
          if Ascii.eqb c "e" || Ascii.eqb c "E"
          then let (eneg, l4'') := take_sign l4' in
               let (ed, rest) := span_digits l4'' in
               match ed with
               | [] => (0, l4)
               | _ => ((if eneg then - digits_value ed else digits_value ed), rest)
               end
          else (0, l4)
      | [] => (0, l4)
      end in
    match skip_spaces l5 with
    | [] =>
        let m := digits_value (ip ++ fp) in
        let v := scale10 m (ex - Z.of_nat (List.length fp)) in
        Some (if neg then Qopp v else v)
    | _ :: _ => None
    end.

(** The words accepted when the scanner fails, compared in lower case. *)
Definition special_word (s : string) : option float64 :=
  let t := Py.lower s in
  if Py.mem t ["nan"; "+nan"; "-nan"] then Some NaN
  else if Py.mem t ["inf"; "+inf"; "infinity"; "+infinity"] then Some (Inf false)
  else if Py.mem t ["-inf"; "-infinity"] then Some (Inf true)
  else None.

(** [pd.to_numeric(cell, errors='coerce')] on one text cell: what does
    not parse becomes NaN.  A number is kept as the exact decimal the text
    spells, without the rounding of a 64-bit float or its overflow to an
    infinity. *)
Definition to_numeric_coerce (s : string) : float64 :=
  match scan_decimal (Py.chars s) with
  | Some q => Finite q
  | None =>
      match special_word s with
      | Some x => x
      | None => NaN
      end
  end.

(** [.fillna(0)]. *)
Definition fillna0 (x : float64) : float64 :=
  match x with
  | NaN => Finite 0
  | _ => x
  end.

(** Truncation toward zero. *)
Definition trunc (q : Q) : Z := Z.quot (Qnum q) (Zpos (Qden q)).

(** [.astype(int)]: refuses non-finite values. *)
Definition astype_int (x : float64) : result Z :=
  match x with
  | Finite q => Ok (trunc q)
  | Inf _ | NaN => Raise IntCastingNaNError
  end.

(** Nearest integer, ties to even. *)
Definition round_half_even (q : Q) : Z :=
  let n := Qnum q in
  let d := Zpos (Qden q) in
  let f := Z.div n d in
  let r := Z.modulo n d in
  match Z.compare (2 * r) d with
  | Lt => f
  | Gt => f + 1
  | Eq => if Z.even f then f else f + 1
  end.

(** The 64-bit float nearest to a rational, ties to even: 53 significant
    bits.  The magnitudes met here lie in the normal range of the format
    (between 2^-1022 and 2^1024), where this is the IEEE rounding. *)
Definition binary64 (q : Q) : Q :=
  let r := Qred q in
  let n := Z.abs (Qnum r) in
  let d := Zpos (Qden r) in
  if n =? 0 then 0%Q
  else
    let scaled (e : Z) : Q :=
      if 0 <=? e then Qmake n (Z.to_pos (d * 2 ^ e))
      else Qmake (n * 2 ^ (- e)) (Qden r) in
    let e0 := Z.log2 n - Z.log2 d - 52 in
    let e := if Qle_bool (inject_Z (2 ^ 52)) (scaled e0) then e0 else e0 - 1 in
    let m := round_half_even (scaled e) in
    let v := if 0 <=? e then inject_Z (m * 2 ^ e)
             else Qmake m (Z.to_pos (2 ^ (- e))) in
    if Qnum r <? 0 then Qopp v else v.

Definition two_digits (n : Z) : string :=
  if n <? 10 then "0" ++ Py.str_of_int n else Py.str_of_int n.

(** [f"{x:.2f}"] on the value of a 64-bit float: the nearest number of
    two decimals, ties to even. *)
Definition format_2f (q : Q) : string :=
  let h := round_half_even (Qabs q * 100) in
  let body := Py.str_of_int (h / 100) ++ "." ++ two_digits (h mod 100) in
  if Qlt_le_dec q 0 then "-" ++ body else body.

End Pd.

(* ===================================================================== *)
(** ** Frames *)
(* ===================================================================== *)

(** A column label: the position [read_html] gives a header-less column,
    or the name assigned by the normalizer. *)
Inductive label : Type :=
| Pos (i : nat)
| Name (s : string).

Definition label_eqb (a b : label) : bool :=
  match a, b with
  | Pos i, Pos j => Nat.eqb i j
  | Name s, Name t => String.eqb s t
  | _, _ => false
  end.

(** A column: text cells (dtype object) or integers (dtype int64). *)
Inductive series : Type :=
| Object (cells : list string)
| Int64 (vals : list Z).

Definition series_len (s : series) : nat :=
  match s with
  | Object cells => List.length cells
  | Int64 vals => List.length vals
  end.

(** A table as [read_html] returns it: labelled columns of text cells. *)
Definition RawFrame : Type := list (label * list string).

(** A frame: labelled columns, in order. [pd.DataFrame()] is [[]]. *)
Definition DataFrame : Type := list (label * series).

Definition empty_frame : DataFrame := [].

Definition columns (df : DataFrame) : list label := map fst df.

(** [len(df)]: the common length of the columns. *)
Definition n_rows (df : DataFrame) : nat :=
  match df with
  | [] => O
  | (_, s) :: _ => series_len s
  end.

(** [df.empty]: no column or no row. *)
Definition is_empty (df : DataFrame) : bool :=
  match df with
  | [] => true
  | _ :: _ => Nat.eqb (n_rows df) 0
  end.

(** [name in df.columns]. *)
Definition has_column (name : string) (df : DataFrame) : bool :=
  existsb (label_eqb (Name name)) (columns df).

Definition as_frame (raw : RawFrame) : DataFrame :=
  map (fun c => (fst c, Object (snd c))) raw.

(** [df.columns = names]: pandas refuses a list of another length. *)
Definition set_columns (df : RawFrame) (names : list string) : result RawFrame :=
  if Nat.eqb (List.length names) (List.length df)
  then Ok (combine (map Name names) (map snd df))
  else Raise (LengthMismatch (List.length df) (List.length names)).

(* ===================================================================== *)
(** ** The selection context and the files *)
(* ===================================================================== *)

Inductive table_type : Type :=
| VehicleClass
| Manufacturer
| VehicleCategoryMonthWise
| ManufacturerMonthWise.

Definition table_type_name (t : table_type) : string :=
  match t with
  | VehicleClass => "Vehicle Class"
  | Manufacturer => "Manufacturer"
  | VehicleCategoryMonthWise => "Vehicle Category Month Wise"
  | ManufacturerMonthWise => "Manufacturer Month Wise"
  end.

Definition is_month_wise (t : table_type) : bool :=
  match t with
  | VehicleCategoryMonthWise | ManufacturerMonthWise => true
  | _ => false
  end.

Inductive vehicle_type : Type :=
| FourWheeler
| ThreeWheeler
| TwoWheeler.

(** The dictionary [vehicle_types]: file-name segment of a vehicle type. *)
Definition vehicle_types (v : vehicle_type) : string :=
  match v with
  | FourWheeler => "four_wheeler"
  | ThreeWheeler => "three_wheeler"
  | TwoWheeler => "two_wheeler"
  end.

Definition month_names : list string :=
  ["Jan"; "Feb"; "Mar"; "Apr"; "May"; "Jun";
   "Jul"; "Aug"; "Sep"; "Oct"; "Nov"; "Dec"].

(** What [pd.read_html] does on a file that exists. *)
Inductive read_html_outcome : Type :=
| Tables (ts : list RawFrame)
| NoTablesFound        (* ValueError *)
| OtherFailure.        (* any other exception *)

(** The files the script can see. *)
Record World : Type := {
  path_exists : string -> bool;
  read_html : string -> read_html_outcome
}.

(* ===================================================================== *)
(** ** The normalizer: [load_tables] and [get_data] *)
(* ===================================================================== *)

Definition load_tables (w : World) (html_path : string) : list RawFrame :=
  if negb (path_exists w html_path) then []
  else match read_html w html_path with
       | Tables tables => tables
       | NoTablesFound => []
       | OtherFailure => []
       end.

Definition html_path (year : Z) (tt : table_type)
    (selected_vehicle_type : option vehicle_type) : string :=
  let slug := Py.lower (Py.replace " " "_" (table_type_name tt)) in
  match selected_vehicle_type with
  | Some v => "src/" ++ vehicle_types v ++ "_" ++ slug ++ "_" ++ Py.str_of_int year ++ ".html"
  | None => "src/" ++ slug ++ "_" ++ Py.str_of_int year ++ ".html"
  end.

(** [idx = 5 if len(tables) > 5 else len(tables) - 1]; only used on a
    non-empty list. *)
Definition table_index (n_tables : nat) : nat :=
  if (5 <? n_tables)%nat then 5%nat else (n_tables - 1)%nat.

Definition select_table (tables : list RawFrame) : result RawFrame :=
  match nth_error tables (table_index (List.length tables)) with
  | Some t => Ok t
  | None => Raise IndexError
  end.

(** One cell of a numeric column:
    [to_numeric(str.replace(",", ""), errors='coerce').fillna(0).astype(int)].
    The number is kept exact: on longer numbers, where 64-bit floats
    round or overflow and 64-bit integers wrap, the statements make no
    use of it. *)
Definition coerce_cell (cell : string) : result Z :=
  Pd.astype_int (Pd.fillna0 (Pd.to_numeric_coerce (Py.replace "," "" cell))).

Definition series_to_int (s : series) : result series :=
  match s with
  | Object cells => vs <- mapM coerce_cell cells ;; Ok (Int64 vs)
  | Int64 vs => Ok (Int64 vs)
  end.

(** [df[col] = ...(df[col])]. *)
Fixpoint assign_int (col : label) (df : DataFrame) : result DataFrame :=
  match df with
  | [] => Ok []
  | (l, s) :: rest =>
      if label_eqb l col
      then s' <- series_to_int s ;; rest' <- assign_int col rest ;; Ok ((l, s') :: rest')
      else rest' <- assign_int col rest ;; Ok ((l, s) :: rest')
  end.

(** [for col in num_cols: df[col] = ...]. *)
Fixpoint for_num_cols (num_cols : list label) (df : DataFrame) : result DataFrame :=
  match num_cols with
  | [] => Ok df
  | col :: cols => df' <- assign_int col df ;; for_num_cols cols df'
  end.

(** [num_cols = [col for col in df.columns if col not in [df.columns[0]]]]
    and the loop over it. *)
Definition to_int_columns (df : DataFrame) : result DataFrame :=
  match columns df with
  | [] => Raise IndexError
  | c0 :: _ =>
      let num_cols := filter (fun col => negb (label_eqb col c0)) (columns df) in
      for_num_cols num_cols df
  end.

Definition fixed_columns (key : string) (v : vehicle_type) : list string :=
  match v with
  | TwoWheeler => [key; "2WIC"; "2WN"; "2WT"; "TOTAL"]
  | ThreeWheeler => [key; "3WN"; "3WT"; "TOTAL"]
  | FourWheeler => [key; "4WIC"; "LMV"; "MMV"; "HMV"; "TOTAL"]
  end.

Definition get_data (w : World) (year : Z) (tt : table_type)
    (selected_vehicle_type : option vehicle_type) : result DataFrame :=
  let tables := load_tables w (html_path year tt selected_vehicle_type) in
  match tables with
  | [] => Ok empty_frame
  | _ :: _ =>
      t <- select_table tables ;;
      let df : RawFrame := tl t in              (* .iloc[:, 1:] *)
      match tt with
      | Manufacturer =>
          match selected_vehicle_type with
          | Some v =>
              df' <- set_columns df (fixed_columns "Manufacturer" v) ;;
              to_int_columns (as_frame df')
          | None => to_int_columns (as_frame df)
          end
      | VehicleClass =>
          match selected_vehicle_type with
          | Some v =>
              df' <- set_columns df (fixed_columns "Class" v) ;;
              to_int_columns (as_frame df')
          | None => to_int_columns (as_frame df)
          end
      | VehicleCategoryMonthWise | ManufacturerMonthWise =>
          let key_column_name :=
            match tt with
            | VehicleCategoryMonthWise => "Category"
            | _ => "Manufacturer"
            end in
          let num_months := Z.of_nat (List.length df) - 2 in
          if 0 <? num_months
          then
            let month_cols := firstn (Z.to_nat num_months) month_names in
            df' <- set_columns df ([key_column_name] ++ month_cols ++ ["TOTAL"]) ;;
            to_int_columns (as_frame df')
          else Ok empty_frame
      end
  end.

(* ===================================================================== *)
(** ** The period comparator *)
(* ===================================================================== *)

(** The placeholder shown instead of a percentage, byte for byte as the
    literal is stored in [app.py] (a dash whose UTF-8 text went through a
    code-page round trip). *)
Definition sentinel : string :=
  Py.str (map ascii_of_nat [195; 162; 226; 130; 172; 226; 128; 157]%nat).

(** [(curr - prev) / prev * 100] as the script evaluates it: the quotient
    of the two integers is a 64-bit float, and so is its product with
    100. *)
Definition pct_change (curr prev : Z) : Q :=
  Pd.binary64 (Pd.binary64 (inject_Z (curr - prev) / inject_Z prev) * 100).

(** [f"{x:.2f}%"]. *)
Definition format_pct (x : Q) : string := Pd.format_2f x ++ "%".

(** The lambda of the row-wise [apply]:
    [f"{(c - p) / p * 100:.2f}%" if p != 0 else sentinel]. *)
Definition change_cell (curr prev : Z) : string :=
  if negb (prev =? 0) then format_pct (pct_change curr prev) else sentinel.

(** [(current_total - previous_total) / previous_total * 100
     if previous_total != 0 else 0]. *)
Definition overall_change (current_total previous_total : Z) : Q :=
  if negb (previous_total =? 0) then pct_change current_total previous_total
  else 0%Q.

Definition sum (l : list Z) : Z := fold_right Z.add 0 l.

(** What a block of the page shows: its table and metric, an information
    or warning box, or the error box of its [except] clause. *)
Inductive notice : Type :=
| MoMDataNotAvailable
| YoMDataNotAvailable
| NoPreviousYearData
| NotEnoughQuarterData
| MonthlyColumnsNotFound.

Inductive report (A : Type) : Type :=
| Shown (a : A)
| Info (n : notice)
| ErrorBox (e : exn).

Arguments Shown {A} a.
Arguments Info {A} n.
Arguments ErrorBox {A} e.

(** [try: ... except Exception as e: st.error(...)]. *)
Definition catch {A : Type} (r : result (report A)) : report A :=
  match r with
  | Ok rep => rep
  | Raise e => ErrorBox e
  end.

(** [df[name]]. *)
Fixpoint get_column (name : label) (df : DataFrame) : result series :=
  match df with
  | [] => Raise (KeyError match name with Name s => s | Pos i => Py.str_of_int (Z.of_nat i) end)
  | (l, s) :: rest => if label_eqb l name then Ok s else get_column name rest
  end.

(** The integers of a numeric column; arithmetic on a text column is a
    [TypeError]. *)
Definition int_column (name : string) (df : DataFrame) : result (list Z) :=
  s <- get_column (Name name) df ;;
  match s with
  | Int64 vals => Ok vals
  | Object _ => Raise (TypeError name)
  end.

(** The cells of the key column, as text. *)
Definition key_cells (key_col : label) (df : DataFrame) : result (list string) :=
  s <- get_column key_col df ;;
  match s with
  | Object cells => Ok cells
  | Int64 vals => Ok (map Py.str_of_int vals)
  end.

(** [df.columns[0]]. *)
Definition column0 (df : DataFrame) : result label :=
  match columns df with
  | [] => Raise IndexError
  | c :: _ => Ok c
  end.

(** [df[[key_col, name]]] as rows. *)
Definition two_columns (key_col : label) (name : string) (df : DataFrame)
  : result (list (string * Z)) :=
  ks <- key_cells key_col df ;;
  vs <- int_column name df ;;
  Ok (combine ks vs).

(** One row of a comparison table. *)
Record comparison_row : Type := {
  category : string;
  previous : Z;
  current : Z;
  change : string
}.

(** A comparison table with its metric: the value is [current_total], the
    delta is [f"{overall:.2f}%"]. *)
Record comparison : Type := {
  rows : list comparison_row;
  current_total : Z;
  previous_total : Z;
  overall : Q;
  delta : string
}.

(** The part the MoM, YoM and YoY blocks repeat: the change column by
    row-wise [apply], the two column sums and the overall change. *)
Definition compare (joined : list (string * Z * Z)) : comparison :=
  let rs :=
    map (fun r => match r with
                  | (k, prev, curr) =>
                      {| category := k; previous := prev; current := curr;
                         change := change_cell curr prev |}
                  end) joined in
  let current_total := sum (map current rs) in
  let previous_total := sum (map previous rs) in
  let overall_change := overall_change current_total previous_total in
  {| rows := rs;
     current_total := current_total;
     previous_total := previous_total;
     overall := overall_change;
     delta := format_pct overall_change |}.

(** *** [pd.merge(left, right, on=key_col, how="outer")] *)

Fixpoint insert_key (k : string) (l : list string) : list string :=
  match l with
  | [] => [k]
  | x :: l' => if String.leb k x then k :: l else x :: insert_key k l'
  end.

Definition sort_keys (l : list string) : list string :=
  fold_right insert_key [] l.

(** The values a table holds for one key, in row order. *)
Definition values_of (k : string) (t : list (string * Z)) : list Z :=
  map snd (filter (fun r => String.eqb (fst r) k) t).

(** The joined rows of one key: the matching rows of both sides paired,
    or the rows of the only side that has the key. *)
Definition join_key (k : string) (left right : list (string * Z))
  : list (string * option Z * option Z) :=
  match values_of k left, values_of k right with
  | [], rs => map (fun r => (k, None, Some r)) rs
  | ls, [] => map (fun l => (k, Some l, None)) ls
  | ls, rs => flat_map (fun l => map (fun r => (k, Some l, Some r)) rs) ls
  end.

(** The outer join: the keys of either side, sorted, each with its rows.
    The keys are texts, compared and sorted as texts. *)
Definition merge_outer (left right : list (string * Z))
  : list (string * option Z * option Z) :=
  flat_map (fun k => join_key k left right)
           (sort_keys (nodup string_dec (map fst left ++ map fst right))).

(** [.fillna(0, inplace=True)], which fills the cells the join left
    without a value: with text keys these lie in the two value columns. *)
Definition fillna (v : option Z) : Z :=
  match v with
  | Some z => z
  | None => 0
  end.

(** The merged frame of the YoM and YoY blocks, as (key, previous, current)
    rows: the current table is the left side of the merge. *)
Definition merged_rows (current_data prev_data : list (string * Z))
  : list (string * Z * Z) :=
  map (fun r => match r with
                | (k, l, r') => (k, fillna r', fillna l)
                end) (merge_outer current_data prev_data).

(** *** Monthly comparisons (MoM, and YoM in January) *)

Definition monthly_comparison (w : World) (selected_year : Z) (tt : table_type)
    (selected_vehicle_type : option vehicle_type) (selected_month : string)
    (df : DataFrame) : report comparison :=
  catch (
    current_month_index <- Py.index selected_month month_names ;;
    key_col <- column0 df ;;
    if (0 <? current_month_index)%nat then
      let prev_month := nth (current_month_index - 1) month_names "" in
      if has_column prev_month df && has_column selected_month df then
        ks <- key_cells key_col df ;;
        prev <- int_column prev_month df ;;
        curr <- int_column selected_month df ;;
        Ok (Shown (compare (combine (combine ks prev) curr)))
      else Ok (Info MoMDataNotAvailable)
    else
      let prev_year := selected_year - 1 in
      prev_df <- get_data w prev_year tt selected_vehicle_type ;;
      if has_column "Jan" df && has_column "Dec" prev_df then
        current_jan_df <- two_columns key_col "Jan" df ;;
        prev_dec_df <- two_columns key_col "Dec" prev_df ;;
        Ok (Shown (compare (merged_rows current_jan_df prev_dec_df)))
      else Ok (Info YoMDataNotAvailable)).

(** *** Quarter over quarter *)

Definition quarter_months : list (string * list string) :=
  [("Q1 (Jan-Mar)", ["Jan"; "Feb"; "Mar"]);
   ("Q2 (Apr-Jun)", ["Apr"; "May"; "Jun"]);
   ("Q3 (Jul-Sep)", ["Jul"; "Aug"; "Sep"]);
   ("Q4 (Oct-Dec)", ["Oct"; "Nov"; "Dec"])].

(** Element-wise sum of two columns. *)
Definition add_columns (a b : list Z) : list Z :=
  map (fun p => fst p + snd p) (combine a b).

(** [df[names].sum(axis=1)] on a frame of [n] rows. *)
Fixpoint sum_axis1 (n : nat) (names : list string) (df : DataFrame)
  : result (list Z) :=
  match names with
  | [] => Ok (repeat 0 n)
  | m :: ms =>
      col <- int_column m df ;;
      rest <- sum_axis1 n ms df ;;
      Ok (add_columns col rest)
  end.

(** The loop over [quarter_months]: the quarters that have a month in the
    frame, each with its column of sums. *)
Fixpoint quarter_columns (quarters : list (string * list string)) (df : DataFrame)
  : result (list (string * list Z)) :=
  match quarters with
  | [] => Ok []
  | (quarter_name, months) :: qs =>
      let existing_months := filter (fun m => has_column m df) months in
      match existing_months with
      | [] => quarter_columns qs df
      | _ :: _ =>
          col <- sum_axis1 (n_rows df) existing_months df ;;
          rest <- quarter_columns qs df ;;
          Ok ((quarter_name, col) :: rest)
      end
  end.

(** The loop [for i in range(1, len(calculated_quarters))]: one change
    column per quarter after the first, against the one before it. *)
Fixpoint change_columns (calculated : list (string * list Z))
  : list (string * list string) :=
  match calculated with
  | (prev_quarter, prev_col) :: (((curr_quarter, curr_col) :: _) as rest) =>
      (curr_quarter ++ " vs " ++ prev_quarter ++ " QoQ%",
       map (fun p => change_cell (fst p) (snd p)) (combine curr_col prev_col))
      :: change_columns rest
  | _ => []
  end.

Record qoq_table : Type := {
  qoq_keys : list string;
  quarters : list (string * list Z);
  qoq_changes : list (string * list string);
  latest_value : Z;       (* value of the metric *)
  latest_delta : string   (* delta of the metric *)
}.

Definition quarter_over_quarter (df : DataFrame) : report qoq_table :=
  catch (
    if existsb (fun m => has_column m df) month_names then
      key_col <- column0 df ;;
      ks <- key_cells key_col df ;;
      calculated <- quarter_columns quarter_months df ;;
      if (1 <? List.length calculated)%nat then
        let changes := change_columns calculated in
        let last_qoq_change :=
          match last changes ("", []) with
          | (_, c :: _) => c        (* .iloc[0] *)
          | (_, []) => sentinel
          end in
        Ok (Shown {| qoq_keys := ks;
                     quarters := calculated;
                     qoq_changes := changes;
                     latest_value := sum (snd (last calculated ("", [])));
                     latest_delta := last_qoq_change |})
      else Ok (Info NotEnoughQuarterData)
    else Ok (Info MonthlyColumnsNotFound)).

(** *** Year over year *)

(** Truth value of the optional month: [None] and the empty text are false. *)
Definition month_selected (selected_month : option string) : option string :=
  match selected_month with
  | Some m => if String.eqb m "" || String.eqb m "All" then None else Some m
  | None => None
  end.

(** The column the YoY block compares: the selected month when both
    frames have it, [TOTAL] otherwise. *)
Definition data_col (selected_month : option string) (df prev_df : DataFrame)
  : string :=
  match month_selected selected_month with
  | Some m => if has_column m df && has_column m prev_df then m else "TOTAL"
  | None => "TOTAL"
  end.

Definition year_over_year (w : World) (selected_year : Z) (tt : table_type)
    (selected_vehicle_type : option vehicle_type) (selected_month : option string)
    (df : DataFrame) : report comparison :=
  catch (
    let prev_year := selected_year - 1 in
    prev_df <- get_data w prev_year tt selected_vehicle_type ;;
    if negb (is_empty prev_df) then
      key_col <- column0 df ;;
      let data_col := data_col selected_month df prev_df in
      current_data <- two_columns key_col data_col df ;;
      prev_data <- two_columns key_col data_col prev_df ;;
      Ok (Shown (compare (merged_rows current_data prev_data)))
    else Ok (Info NoPreviousYearData)).

(** *** The page *)

Record page : Type := {
  monthly : option (report comparison);
  quarterly : option (report qoq_table);
  yearly : report comparison
}.

(** One run of the script for a selection: an exception of the first
    [get_data] is not caught; an empty frame shows "No data found" and
    nothing else ([None]). *)
Definition run_script (w : World) (selected_year : Z) (tt : table_type)
    (selected_vehicle_type : option vehicle_type) (selected_month : option string)
  : result (option page) :=
  df <- get_data w selected_year tt selected_vehicle_type ;;
  if is_empty df then Ok None
  else
    Ok (Some
      {| monthly :=
           match month_selected selected_month with
           | Some m => Some (monthly_comparison w selected_year tt selected_vehicle_type m df)
           | None => None
           end;
         quarterly :=
           match selected_month with
           | Some m => if String.eqb m "All" then Some (quarter_over_quarter df) else None
           | None => None
           end;
         yearly := year_over_year w selected_year tt selected_vehicle_type selected_month df |}).

(* ===================================================================== *)
(** ** The sidebar and the displayed table *)
(* ===================================================================== *)

(** The vehicle type is asked only when the table type is not month-wise
    (lines 52-63). *)
Definition sidebar_vehicle_type (tt : table_type) (choice : vehicle_type)
  : option vehicle_type :=
  if negb (is_month_wise tt) then Some choice else None.

(** The options of the month box (lines 77-82): for the current year the
    months up to the current one, for another year all of them. *)
Definition available_months (current_year current_month selected_year : Z)
  : list string :=
  if selected_year =? current_year
  then ["All"] ++ firstn (Z.to_nat current_month) month_names
  else ["All"] ++ month_names.

(** The table shown under the header (lines 153-161): the key, the
    selected month and the total when a month is selected and is a column
    of the frame, the whole frame otherwise. *)
Definition display_df (selected_month : option string) (df : DataFrame)
  : result DataFrame :=
  match month_selected selected_month with
  | Some m =>
      if has_column m df then
        key_col <- column0 df ;;
        c0 <- get_column key_col df ;;
        c1 <- get_column (Name m) df ;;
        c2 <- get_column (Name "TOTAL") df ;;
        Ok [(key_col, c0); (Name (m ++ " Registrations"), c1); (Name "TOTAL", c2)]
      else Ok df
  | None => Ok df
  end.

(* ===================================================================== *)
(** ** The file names of the scraping scripts *)
(* ===================================================================== *)

Module Scraper.

(** [vehicle_types] of [data_vehicle_class.py]. *)
Definition vehicle_types : list string :=
  ["TWO WHEELER"; "THREE WHEELER"; "FOUR WHEELER"].

(** [f"{vt.lower().replace(' ', '_')}_vehicle_class_{year}.html"]. *)
Definition vehicle_class_fname (vt year : string) : string :=
  Py.replace " " "_" (Py.lower vt) ++ "_vehicle_class_" ++ year ++ ".html".

(** [f"vehicle_category_month_wise_{year}.html"]. *)
Definition vehicle_category_month_wise_fname (year : string) : string :=
  "vehicle_category_month_wise_" ++ year ++ ".html".

(** [f"manufacturer_month_wise_{year}.html"]. *)
Definition manufacturer_month_wise_fname (year : string) : string :=
  "manufacturer_month_wise_" ++ year ++ ".html".

(** [os.path.join("src", filename)], for the separator [sep] of the
    platform. *)
Definition file_path (sep filename : string) : string :=
  "src" ++ sep ++ filename.

End Scraper.

(* ===================================================================== *)
(** ** Shapes used by the statements *)
(* ===================================================================== *)

(** A selection that gets column names: a month-wise table type, or a
    vehicle type chosen for the two other table types. *)
Definition named_selection (tt : table_type) (vt : option vehicle_type) : bool :=
  is_month_wise tt || match vt with Some _ => true | None => false end.

(** The names [get_data] assigns to a table of [n] columns. *)
Definition assigned_names (tt : table_type) (vt : option vehicle_type) (n : nat)
  : list string :=
  match tt, vt with
  | Manufacturer, Some v => fixed_columns "Manufacturer" v
  | VehicleClass, Some v => fixed_columns "Class" v
  | VehicleCategoryMonthWise, _ =>
      ["Category"] ++ firstn (n - 2) month_names ++ ["TOTAL"]
  | ManufacturerMonthWise, _ =>
      ["Manufacturer"] ++ firstn (n - 2) month_names ++ ["TOTAL"]
  | _, None => []
  end.

(** One numeric column, converted cell by cell. *)
Definition convert_column (c : label * list string) : result (label * series) :=
  vs <- mapM coerce_cell (snd c) ;; Ok (fst c, Int64 vs).

(** The frame the conversion loop leaves: the key column as it was, every
    other column converted. *)
Definition converted (raw : RawFrame) : result DataFrame :=
  match raw with
  | [] => Raise IndexError
  | (key, cells) :: others =>
      cols <- mapM convert_column others ;;
      Ok ((key, Object cells) :: cols)
  end.

(** The rule of the zero baseline on a comparison table: a row whose
    previous value is 0 shows the placeholder, and a previous total of 0
    gives an overall change of 0, shown as 0.00%. *)
Definition zero_baseline_rule (c : comparison) : Prop :=
  (forall r, In r (rows c) -> previous r = 0 -> change r = sentinel)
  /\ (previous_total c = 0 -> overall c = 0%Q /\ delta c = "0.00%").

(** The percentage formula of the specification on two column sums, as a
    float division evaluates it: dividing by a zero sum gives an infinity
    or NaN, not a number. *)
Definition formula_on_sums (current_sum previous_sum : Z) : Pd.float64 :=
  if previous_sum =? 0
  then (if current_sum =? 0 then Pd.NaN else Pd.Inf (current_sum <? 0))
  else Pd.Finite (pct_change current_sum previous_sum).

(** The overall change of a comparison table comes from its column sums. *)
Definition overall_from_sums (c : comparison) : Prop :=
  current_total c = sum (map current (rows c))
  /\ previous_total c = sum (map previous (rows c))
  /\ (previous_total c <> 0 ->
      overall c = pct_change (current_total c) (previous_total c)
      /\ Pd.Finite (overall c) = formula_on_sums (current_total c) (previous_total c))
  /\ (previous_total c = 0 -> overall c = 0%Q)
  /\ delta c = format_pct (overall c).

(** The rows of a joined table that carry a given category, compared by
    equality of texts. *)
Definition rows_of_category (k : string) (joined : list (string * Z * Z))
  : list (string * Z * Z) :=
  filter (fun r => String.eqb (fst (fst r)) k) joined.

(** The (category, previous, current) rows of a comparison table. *)
Definition joined_rows (c : comparison) : list (string * Z * Z) :=
  map (fun r => (category r, previous r, current r)) (rows c).

(** The shape of a frame [get_data] returns for a named selection: a text
    key column whose name is no month, then integer columns of the same
    length. *)
Definition normalized (df : DataFrame) : bool :=
  match df with
  | (Name key, Object cells) :: cols =>
      negb (Py.mem key month_names)
      && forallb (fun c => match c with
                           | (Name _, Int64 vs) => Nat.eqb (List.length vs) (List.length cells)
                           | _ => false
                           end) cols
  | _ => false
  end.

(** The value of a month column in a row, 0 outside the frame. *)
Definition month_value (df : DataFrame) (m : string) (j : nat) : Z :=
  match int_column m df with
  | Ok vs => nth j vs 0
  | Raise _ => 0
  end.

(** The quarters of the specification: a quarter is included when one of
    its three months is a column of the frame, and its value in a row is
    the sum of the months it has. *)
Definition included_quarters (df : DataFrame) : list (string * list Z) :=
  map (fun q =>
         (fst q,
          map (fun j => sum (map (fun m => month_value df m j)
                                 (filter (fun m => has_column m df) (snd q))))
              (seq 0 (n_rows df))))
      (filter (fun q => existsb (fun m => has_column m df) (snd q)) quarter_months).

(** The name [get_data] gives the first column. *)
Definition key_name (tt : table_type) : string :=
  match tt with
  | VehicleClass => "Class"
  | Manufacturer => "Manufacturer"
  | VehicleCategoryMonthWise => "Category"
  | ManufacturerMonthWise => "Manufacturer"
  end.

(** The label of a scraped vehicle group for a vehicle type of the
    dashboard. *)
Definition scraped_label (v : vehicle_type) : string :=
  match v with
  | TwoWheeler => "TWO WHEELER"
  | ThreeWheeler => "THREE WHEELER"
  | FourWheeler => "FOUR WHEELER"
  end.

(** What the page blocks rely on in a frame of [get_data]: the key
    column first, under the name of the table type and as text, integer
    columns under other names after it, and a TOTAL column among them. *)
Definition table_frame (tt : table_type) (df : DataFrame) : Prop :=
  exists cells cols,
    df = (Name (key_name tt), Object cells) :: cols
    /\ Forall (fun c => exists name vs,
                   c = (Name name, Int64 vs) /\ name <> key_name tt) cols
    /\ has_column "TOTAL" df = true.

(** The sum of a month column of the frame. *)
Definition month_total (df : DataFrame) (m : string) : Z :=
  match int_column m df with
  | Ok vs => sum vs
  | Raise _ => 0
  end.

(** Pairwise distinct names. *)
Fixpoint distinct (l : list string) : bool :=
  match l with
  | [] => true
  | x :: l' => negb (Py.mem x l') && distinct l'
  end.

(** Cells made of digits and thousands separators only. *)
Definition digits_and_commas (cell : string) : bool :=
  forallb (fun c => Pd.is_digit c || Ascii.eqb c ",") (Py.chars cell).




Definition digit_count (cell : string) : nat :=
  List.length (filter Pd.is_digit (Py.chars cell)).

(** A key cell that [read_html] keeps as text: it is no number, and not
    the "nan" that [astype(str)] writes for an empty cell. *)
Definition text_key (cell : string) : bool :=
  negb (String.eqb cell "nan")
  && match Pd.to_numeric_coerce cell with
     | Pd.NaN => true
     | _ => false
     end.

(** The text keys of a frame: its first column, when all its cells are
    text. *)
Definition text_keys (df : DataFrame) : bool :=
  match df with
  | (_, Object cells) :: _ => forallb text_key cells
  | _ => false
  end.

(** A file system with one file for every path, holding the one table
    [t]. *)
Definition single_table (t : RawFrame) : World :=
  {| path_exists := fun _ => true;
     read_html := fun _ => Tables [t] |}.

(** The last character of a text. *)
Fixpoint last_char (s : string) : option ascii :=
  match s with
  | EmptyString => None
  | String c EmptyString => Some c
  | String _ s' => last_char s'
  end.

(* ===================================================================== *)
(** ** Sample data *)
(* ===================================================================== *)

Module Sample.

(** A month-wise table of three months, with its row-number column. *)
Definition category_2025 : RawFrame :=
  [(Pos 0, ["1"; "2"]);
   (Pos 1, ["BUS"; "CAR"]);
   (Pos 2, ["100"; "0"]);
   (Pos 3, ["150"; "40"]);
   (Pos 4, ["0"; "1,210"]);
   (Pos 5, ["250"; "1,250"])].

(** The year before: all twelve months. *)
Definition category_2024 : RawFrame :=
  [(Pos 0, ["1"; "2"]);
   (Pos 1, ["CAR"; "VAN"]);
   (Pos 2, ["1"; "2"]); (Pos 3, ["1"; "2"]); (Pos 4, ["1"; "2"]);
   (Pos 5, ["1"; "2"]); (Pos 6, ["1"; "2"]); (Pos 7, ["1"; "2"]);
   (Pos 8, ["1"; "2"]); (Pos 9, ["1"; "2"]); (Pos 10, ["1"; "2"]);
   (Pos 11, ["1"; "2"]); (Pos 12, ["1"; "2"]); (Pos 13, ["0"; "50"]);
   (Pos 14, ["11"; "72"])].

(** A four-wheeler manufacturer table that lacks one class column. *)
Definition short_manufacturer : RawFrame :=
  [(Pos 0, ["1"]);
   (Pos 1, ["Maruti"]);
   (Pos 2, ["10"]); (Pos 3, ["20"]); (Pos 4, ["30"]); (Pos 5, ["60"])].

(** A well-shaped four-wheeler manufacturer table. *)
Definition manufacturer_2024 : RawFrame :=
  [(Pos 0, ["1"]);
   (Pos 1, ["Maruti"]);
   (Pos 2, ["10"]); (Pos 3, ["20"]); (Pos 4, ["30"]); (Pos 5, ["40"]);
   (Pos 6, ["100"])].

(** A month-wise manufacturer table of two months, nothing in January. *)
Definition quiet_january : RawFrame :=
  [(Pos 0, ["1"; "2"]);
   (Pos 1, ["HERO"; "TVS"]);
   (Pos 2, ["0"; "0"]);
   (Pos 3, ["5"; "7"]);
   (Pos 4, ["5"; "7"])].

(** A month-wise table of fifteen columns after the row-number column. *)
Definition wide_monthly : RawFrame :=
  map (fun i => (Pos i, ["7"])) (seq 0 16).

(** A page of seven tables, the data table sixth. *)
Definition seven_tables : list RawFrame :=
  [short_manufacturer; wide_monthly; quiet_january; manufacturer_2024;
   category_2025; category_2024; short_manufacturer].

Definition files : list (string * read_html_outcome) :=
  [("src/vehicle_category_month_wise_2025.html", Tables [category_2025]);
   ("src/vehicle_category_month_wise_2024.html", Tables [category_2024]);
   ("src/four_wheeler_manufacturer_2025.html", Tables [short_manufacturer]);
   ("src/four_wheeler_manufacturer_2024.html", Tables [manufacturer_2024]);
   ("src/manufacturer_month_wise_2025.html", Tables [wide_monthly]);
   ("src/manufacturer_month_wise_2024.html", NoTablesFound);
   ("src/manufacturer_month_wise_2023.html", Tables [quiet_january]);
   ("src/two_wheeler_vehicle_class_2025.html", OtherFailure);
   ("src/vehicle_category_month_wise_2022.html", Tables seven_tables)].

Fixpoint find_file (path : string) (fs : list (string * read_html_outcome))
  : option read_html_outcome :=
  match fs with
  | [] => None
  | (p, o) :: fs' => if String.eqb p path then Some o else find_file path fs'
  end.

Definition world : World :=
  {| path_exists := fun p => match find_file p files with Some _ => true | None => false end;
     read_html := fun p => match find_file p files with Some o => o | None => OtherFailure end |}.

(** The frames [get_data] makes of these files. *)
Definition frame_2025 : DataFrame :=
  [(Name "Category", Object ["BUS"; "CAR"]);
   (Name "Jan", Int64 [100; 0]); (Name "Feb", Int64 [150; 40]);
   (Name "Mar", Int64 [0; 1210]); (Name "TOTAL", Int64 [250; 1250])].

Definition frame_2024 : DataFrame :=
  [(Name "Category", Object ["CAR"; "VAN"]);
   (Name "Jan", Int64 [1; 2]); (Name "Feb", Int64 [1; 2]);
   (Name "Mar", Int64 [1; 2]); (Name "Apr", Int64 [1; 2]);
   (Name "May", Int64 [1; 2]); (Name "Jun", Int64 [1; 2]);
   (Name "Jul", Int64 [1; 2]); (Name "Aug", Int64 [1; 2]);
   (Name "Sep", Int64 [1; 2]); (Name "Oct", Int64 [1; 2]);
   (Name "Nov", Int64 [1; 2]); (Name "Dec", Int64 [0; 50]);
   (Name "TOTAL", Int64 [11; 72])].


Definition frame_2023 : DataFrame :=
  [(Name "Manufacturer", Object ["HERO"; "TVS"]);
   (Name "Jan", Int64 [0; 0]); (Name "Feb", Int64 [5; 7]);
   (Name "TOTAL", Int64 [5; 7])].

End Sample.

(* ===================================================================== *)
(** ** Properties of the normalizer *)
(* ===================================================================== *)

Local Open Scope list_scope.

Section Normalizer.

Variable w : World.

Lemma load_tables_missing path :
  path_exists w path = false -> load_tables w path = [].
Proof. intros H. unfold load_tables. now rewrite H. Qed.

Lemma load_tables_no_tables path :
  read_html w path = NoTablesFound \/ read_html w path = OtherFailure
  \/ read_html w path = Tables [] ->
  load_tables w path = [].
Proof.
  intros H. unfold load_tables.
  destruct (path_exists w path); simpl; [| reflexivity].
  destruct H as [H | [H | H]]; now rewrite H.
Qed.

Lemma get_data_no_tables year tt vt :
  load_tables w (html_path year tt vt) = [] ->
  get_data w year tt vt = Ok empty_frame.
Proof. intros H. unfold get_data. now rewrite H. Qed.

Lemma select_table_nonempty (tables : list RawFrame) t :
  select_table tables = Ok t -> tables <> [].
Proof. intros H ->. discriminate H. Qed.

(** [get_data] once the file has given tables and one is selected. *)
Lemma get_data_selected year tt vt t :
  select_table (load_tables w (html_path year tt vt)) = Ok t ->
  get_data w year tt vt =
  match tt with
  | Manufacturer =>
      match vt with
      | Some v => df' <- set_columns (tl t) (fixed_columns "Manufacturer" v) ;;
                  to_int_columns (as_frame df')
      | None => to_int_columns (as_frame (tl t))
      end
  | VehicleClass =>
      match vt with
      | Some v => df' <- set_columns (tl t) (fixed_columns "Class" v) ;;
                  to_int_columns (as_frame df')
      | None => to_int_columns (as_frame (tl t))
      end
  | _ =>
      let key := match tt with VehicleCategoryMonthWise => "Category" | _ => "Manufacturer" end in
      let num_months := Z.of_nat (List.length (tl t)) - 2 in
      if 0 <? num_months
      then df' <- set_columns (tl t)
                    ([key] ++ firstn (Z.to_nat num_months) month_names ++ ["TOTAL"]) ;;
           to_int_columns (as_frame df')
      else Ok empty_frame
  end.
Proof.
  intros Hsel. unfold get_data.
  destruct (load_tables w (html_path year tt vt)) as [| t0 ts] eqn:Hl.
  - discriminate Hsel.
  - rewrite Hsel. simpl. destruct tt; reflexivity.
Qed.

End Normalizer.

Lemma select_table_position (tables : list RawFrame) :
  tables <> [] ->
  exists t,
    select_table tables = Ok t
    /\ ((5 < List.length tables)%nat -> nth_error tables 5 = Some t)
    /\ ((List.length tables <= 5)%nat -> last tables [] = t).
Proof.
  intros Hne. unfold select_table, table_index.
  destruct (5 <? List.length tables)%nat eqn:Hlen.
  - apply Nat.ltb_lt in Hlen.
    destruct (nth_error tables 5) as [t |] eqn:Hnth.
    + exists t. repeat split; auto. lia.
    + apply nth_error_None in Hnth. lia.
  - apply Nat.ltb_ge in Hlen.
    destruct (exists_last Hne) as [front [t ->]].
    exists t. rewrite length_app. simpl.
    replace (List.length front + 1 - 1)%nat with (List.length front) by lia.
    rewrite nth_error_app2 by lia. rewrite Nat.sub_diag. simpl.
    repeat split; auto.
    + rewrite length_app in Hlen. simpl in Hlen. lia.
    + intros _. apply last_last.
Qed.

(** C8. When the file of the selection gives a non-empty sequence of raw
    tables, [get_data] works on the table at index 5 when there are more
    than five tables and on the last table otherwise: what it returns or
    raises is what it returns or raises on a file that holds that table
    alone. *)
Theorem get_data_table_by_position (w : World) (year : Z) (tt : table_type)
    (vt : option vehicle_type) (tables : list RawFrame) :
  load_tables w (html_path year tt vt) = tables ->
  tables <> [] ->
  exists t,
    ((5 < List.length tables)%nat -> nth_error tables 5 = Some t)
    /\ ((List.length tables <= 5)%nat -> last tables [] = t)
    /\ get_data w year tt vt = get_data (single_table t) year tt vt.
Proof.
  intros Hload Hne.
  destruct (select_table_position Hne) as (t & Hsel & Hmany & Hfew).
  exists t. split; [exact Hmany |]. split; [exact Hfew |].
  rewrite <- Hload in Hsel.
  rewrite (get_data_selected w year tt vt Hsel).
  symmetry. apply get_data_selected. reflexivity.
Qed.

Lemma get_data_table_by_position_witness :
  nth_error Sample.seven_tables 5 = Some Sample.category_2024
  /\ get_data Sample.world 2022 VehicleCategoryMonthWise None
     = get_data (single_table Sample.category_2024) 2022 VehicleCategoryMonthWise None
  /\ get_data Sample.world 2022 VehicleCategoryMonthWise None = Ok Sample.frame_2024.
Proof.
  destruct (@get_data_table_by_position Sample.world 2022 VehicleCategoryMonthWise
              None Sample.seven_tables eq_refl) as (t & Hmany & _ & Hget);
    [discriminate |].
  assert (Ht : Some Sample.category_2024 = Some t)
    by (apply Hmany; simpl; lia).
  injection Ht as <-.
  split; [reflexivity |]. split; [exact Hget |].
  rewrite Hget. reflexivity.
Defined.

(** C9. A path that does not resolve, a file without tables, and a
    month-wise table whose inferred month count is not positive all give
    the empty frame, zero rows and zero columns, and no exception; the page
    then shows "No data found" and nothing else. *)
Theorem no_data_gives_empty_frame (w : World) (year : Z) (tt : table_type)
    (vt : option vehicle_type) :
  let path := html_path year tt vt in
  path_exists w path = false
  \/ (read_html w path = NoTablesFound \/ read_html w path = OtherFailure
      \/ read_html w path = Tables [])
  \/ (is_month_wise tt = true
      /\ exists t, select_table (load_tables w path) = Ok t
                   /\ Z.of_nat (List.length (tl t)) - 2 <= 0) ->
  exists df, get_data w year tt vt = Ok df
             /\ columns df = [] /\ n_rows df = 0%nat
             /\ forall selected_month,
                 run_script w year tt vt selected_month = Ok None.
Proof.
  intros path Hcase.
  assert (Hget : get_data w year tt vt = Ok empty_frame).
  { destruct Hcase as [H | [H | [Hm [t [Hsel Hn]]]]].
    - apply get_data_no_tables. now apply load_tables_missing.
    - apply get_data_no_tables. now apply load_tables_no_tables.
    - rewrite (get_data_selected _ _ _ _ Hsel).
      destruct tt; try discriminate Hm;
        (cbv zeta; destruct (0 <? Z.of_nat (List.length (tl t)) - 2) eqn:Hc;
         [apply Z.ltb_lt in Hc; lia | reflexivity]). }
  exists empty_frame. repeat split; [exact Hget |].
  intros selected_month. unfold run_script. rewrite Hget. reflexivity.
Qed.

Lemma no_data_gives_empty_frame_witness :
  exists df, get_data Sample.world 2023 VehicleClass (Some ThreeWheeler) = Ok df
             /\ columns df = [] /\ n_rows df = 0%nat
             /\ forall selected_month,
                 run_script Sample.world 2023 VehicleClass (Some ThreeWheeler)
                   selected_month = Ok None.
Proof.
  apply (@no_data_gives_empty_frame Sample.world 2023 VehicleClass (Some ThreeWheeler)).
  left. reflexivity.
Defined.

(** C10. For a month-wise selection whose chosen table keeps more than 14
    columns once the leading index column is dropped, the column
    assignment raises: only 12 month names exist, so 14 names are assigned
    to more than 14 columns. *)
Theorem wide_monthly_table_raises (w : World) (year : Z) (tt : table_type)
    (vt : option vehicle_type) (t : RawFrame) :
  is_month_wise tt = true ->
  select_table (load_tables w (html_path year tt vt)) = Ok t ->
  (14 < List.length (tl t))%nat ->
  get_data w year tt vt = Raise (LengthMismatch (List.length (tl t)) 14).
Proof.
  intros Hm Hsel Hwide.
  rewrite (get_data_selected _ _ _ _ Hsel).
  assert (Hpos : (0 <? Z.of_nat (List.length (tl t)) - 2) = true)
    by (apply Z.ltb_lt; lia).
  assert (Hmonths :
    firstn (Z.to_nat (Z.of_nat (List.length (tl t)) - 2)) month_names = month_names).
  { apply firstn_all2. simpl. lia. }
  destruct tt; try discriminate Hm; cbv zeta; rewrite Hpos, Hmonths;
    unfold set_columns;
    (destruct (Nat.eqb _ (List.length (tl t))) eqn:He;
     [apply Nat.eqb_eq in He; simpl in He; lia | reflexivity]).
Qed.

Lemma wide_monthly_table_raises_witness :
  get_data Sample.world 2025 ManufacturerMonthWise None = Raise (LengthMismatch 15 14).
Proof.
  apply (@wide_monthly_table_raises Sample.world 2025 ManufacturerMonthWise None
           Sample.wide_monthly).
  - reflexivity.
  - reflexivity.
  - simpl. lia.
Defined.

(** C3. A fixed-schema table with a column too few: the column assignment
    raises, and the page run stops on that exception, where the claim
    expects the empty frame. *)
Theorem column_count_mismatch_raises :
  select_table (load_tables Sample.world (html_path 2025 Manufacturer (Some FourWheeler)))
    = Ok Sample.short_manufacturer
  /\ List.length (tl Sample.short_manufacturer) = 5%nat
  /\ List.length (fixed_columns "Manufacturer" FourWheeler) = 6%nat
  /\ get_data Sample.world 2025 Manufacturer (Some FourWheeler)
     = Raise (LengthMismatch 5 6)
  /\ run_script Sample.world 2025 Manufacturer (Some FourWheeler) None
     = Raise (LengthMismatch 5 6).
Proof. repeat split; reflexivity. Qed.

(* ===================================================================== *)
(** ** The conversion loop *)
(* ===================================================================== *)

Lemma label_eqb_eq a b : label_eqb a b = true <-> a = b.
Proof.
  destruct a, b; simpl; try (split; [discriminate | intros H; discriminate H]).
  - rewrite Nat.eqb_eq. split; [now intros -> | now intros [= ->]].
  - rewrite String.eqb_eq. split; [now intros -> | now intros [= ->]].
Qed.

Lemma label_eqb_refl a : label_eqb a a = true.
Proof. now apply label_eqb_eq. Qed.

Lemma label_eqb_neq a b : a <> b -> label_eqb a b = false.
Proof.
  intros H. destruct (label_eqb a b) eqn:E; [| reflexivity].
  apply label_eqb_eq in E. contradiction.
Qed.

Lemma columns_as_frame raw : columns (as_frame raw) = map fst raw.
Proof. unfold columns, as_frame. rewrite map_map. reflexivity. Qed.

Lemma assign_int_absent col df :
  ~ In col (columns df) -> assign_int col df = Ok df.
Proof.
  induction df as [| [l s] df IH]; simpl; intros H; [reflexivity |].
  rewrite label_eqb_neq by (intros ->; apply H; now left).
  rewrite IH by (intros Hin; apply H; now right). reflexivity.
Qed.

Lemma assign_int_app col a b :
  assign_int col (a ++ b) =
  (a' <- assign_int col a ;; b' <- assign_int col b ;; Ok (a' ++ b')).
Proof.
  induction a as [| [l s] a IH]; simpl.
  - destruct (assign_int col b); reflexivity.
  - destruct (label_eqb l col).
    + destruct (series_to_int s); simpl; [| reflexivity].
      rewrite IH. destruct (assign_int col a); simpl; [| reflexivity].
      destruct (assign_int col b); reflexivity.
    + rewrite IH. destruct (assign_int col a); simpl; [| reflexivity].
      destruct (assign_int col b); reflexivity.
Qed.

(** The loop over the labels of the columns still to convert. *)
Lemma for_num_cols_converts (todo : RawFrame) :
  forall done : DataFrame,
    NoDup (map fst todo) ->
    (forall l, In l (map fst todo) -> ~ In l (columns done)) ->
    for_num_cols (map fst todo) (done ++ as_frame todo) =
    (cols <- mapM convert_column todo ;; Ok (done ++ cols)).
Proof.
  induction todo as [| [l cells] todo IH]; intros done Hnd Hfresh.
  - simpl. rewrite app_nil_r. reflexivity.
  - inversion Hnd as [| ? ? Hnotin Hnd']; subst.
    cbn [map fst for_num_cols as_frame snd].
    rewrite assign_int_app.
    rewrite assign_int_absent by (apply Hfresh; now left).
    cbn [bind assign_int]. rewrite label_eqb_refl.
    fold (as_frame todo).
    rewrite (@assign_int_absent l (as_frame todo))
      by (rewrite columns_as_frame; exact Hnotin).
    cbn [mapM]. unfold convert_column at 1. cbn [fst snd series_to_int].
    destruct (mapM coerce_cell cells) as [vs | e]; cbn [bind]; [| reflexivity].
    replace (done ++ (l, Int64 vs) :: as_frame todo)
      with ((done ++ [(l, Int64 vs)]) ++ as_frame todo)
      by (rewrite <- app_assoc; reflexivity).
    rewrite IH.
    + destruct (mapM convert_column todo); cbn [bind]; [| reflexivity].
      rewrite <- app_assoc. reflexivity.
    + exact Hnd'.
    + intros l' Hin Hin'. unfold columns in Hin'. rewrite map_app in Hin'.
      apply in_app_or in Hin'. destruct Hin' as [Hin' | [Heq | []]].
      * apply (Hfresh l'); [now right | exact Hin'].
      * simpl in Heq. subst l'. contradiction.
Qed.

Lemma filter_others (c0 : label) (ls : list label) :
  ~ In c0 ls -> filter (fun col => negb (label_eqb col c0)) ls = ls.
Proof.
  induction ls as [| l ls IH]; simpl; intros H; [reflexivity |].
  rewrite label_eqb_neq by (intros ->; apply H; now left). simpl.
  rewrite IH by (intros Hin; apply H; now right). reflexivity.
Qed.

(** With distinct labels the loop converts every column but the first. *)
Lemma to_int_columns_converted (raw : RawFrame) :
  NoDup (map fst raw) -> to_int_columns (as_frame raw) = converted raw.
Proof.
  destruct raw as [| [key cells] others]; intros Hnd; [reflexivity |].
  inversion Hnd as [| ? ? Hnotin Hnd']; subst.
  unfold to_int_columns, converted.
  rewrite columns_as_frame. cbn [map fst]. cbv zeta. cbn [filter].
  rewrite label_eqb_refl. cbn [negb].
  rewrite filter_others by exact Hnotin.
  change (as_frame ((key, cells) :: others))
    with ([(key, Object cells)] ++ as_frame others).
  rewrite for_num_cols_converts.
  - reflexivity.
  - exact Hnd'.
  - intros l Hin [Heq | []]. simpl in Heq. subst l. contradiction.
Qed.

Lemma mapM_Forall2 {A B : Type} (f : A -> result B) (l : list A) (bs : list B) :
  mapM f l = Ok bs -> Forall2 (fun a b => f a = Ok b) l bs.
Proof.
  revert bs. induction l as [| a l IH]; simpl; intros bs H.
  - injection H as <-. constructor.
  - destruct (f a) as [b |] eqn:Hb; simpl in H; [| discriminate].
    destruct (mapM f l) as [bs' |]; simpl in H; [| discriminate].
    injection H as <-. constructor; auto.
Qed.

Lemma mem_In x l : Py.mem x l = true <-> In x l.
Proof.
  unfold Py.mem. rewrite existsb_exists. split.
  - intros [y [Hin Heq]]. apply String.eqb_eq in Heq. now subst.
  - intros Hin. exists x. split; [exact Hin | apply String.eqb_refl].
Qed.

Lemma distinct_NoDup l : distinct l = true -> NoDup l.
Proof.
  induction l as [| x l IH]; simpl; intros H; constructor.
  - apply andb_prop in H. destruct H as [H _].
    intros Hin. apply mem_In in Hin. rewrite Hin in H. discriminate.
  - apply IH. apply andb_prop in H. tauto.
Qed.

Lemma assigned_names_NoDup tt vt n : NoDup (assigned_names tt vt n).
Proof.
  apply distinct_NoDup.
  destruct tt, vt as [[] |]; try reflexivity; unfold assigned_names;
    generalize (n - 2)%nat; intros k;
    do 12 (destruct k as [| k]; [reflexivity |]);
    destruct k; reflexivity.
Qed.

Lemma set_columns_labels raw names df' :
  set_columns raw names = Ok df' -> map fst df' = map Name names.
Proof.
  unfold set_columns. destruct (Nat.eqb _ _) eqn:He; [| discriminate].
  apply Nat.eqb_eq in He. intros [= <-].
  revert raw He. induction names as [| x names IH]; intros [| c raw] He;
    simpl in *; try discriminate; [reflexivity |].
  f_equal. apply IH. lia.
Qed.

Lemma NoDup_Name names : NoDup names -> NoDup (map Name names).
Proof.
  intros H. apply Finite.Injective_map_NoDup; [| exact H].
  intros a b [= ->]. reflexivity.
Qed.

(** [get_data] on a selection that gets names, once a table is selected:
    the empty frame for a month-wise table without month column, else the
    renamed table with every column but the first converted. *)
Lemma get_data_named (w : World) year tt vt t :
  named_selection tt vt = true ->
  select_table (load_tables w (html_path year tt vt)) = Ok t ->
  get_data w year tt vt =
  if is_month_wise tt && (List.length (tl t) <=? 2)%nat then Ok empty_frame
  else (df' <- set_columns (tl t) (assigned_names tt vt (List.length (tl t))) ;;
        converted df').
Proof.
  intros Hnamed Hsel. rewrite (get_data_selected _ _ _ _ Hsel).
  assert (Hconv : forall names,
    NoDup names ->
    (df' <- set_columns (tl t) names ;; to_int_columns (as_frame df')) =
    (df' <- set_columns (tl t) names ;; converted df')).
  { intros names Hnd. destruct (set_columns (tl t) names) as [df' |] eqn:Hset;
      [| reflexivity].
    cbn [bind]. apply to_int_columns_converted.
    rewrite (set_columns_labels _ _ Hset). now apply NoDup_Name. }
  destruct tt; cbn [is_month_wise andb].
  - destruct vt as [v |]; [| discriminate Hnamed].
    apply (Hconv (assigned_names VehicleClass (Some v) (List.length (tl t)))).
    apply assigned_names_NoDup.
  - destruct vt as [v |]; [| discriminate Hnamed].
    apply (Hconv (assigned_names Manufacturer (Some v) (List.length (tl t)))).
    apply assigned_names_NoDup.
  - cbv zeta. destruct (List.length (tl t) <=? 2)%nat eqn:Hle.
    + apply Nat.leb_le in Hle.
      destruct (0 <? Z.of_nat (List.length (tl t)) - 2) eqn:Hc; [| reflexivity].
      apply Z.ltb_lt in Hc. lia.
    + apply Nat.leb_gt in Hle.
      destruct (0 <? Z.of_nat (List.length (tl t)) - 2) eqn:Hc;
        [| apply Z.ltb_ge in Hc; lia].
      replace (Z.to_nat (Z.of_nat (List.length (tl t)) - 2))
        with (List.length (tl t) - 2)%nat by lia.
      apply (Hconv (assigned_names VehicleCategoryMonthWise vt (List.length (tl t)))).
      apply assigned_names_NoDup.
  - cbv zeta. destruct (List.length (tl t) <=? 2)%nat eqn:Hle.
    + apply Nat.leb_le in Hle.
      destruct (0 <? Z.of_nat (List.length (tl t)) - 2) eqn:Hc; [| reflexivity].
      apply Z.ltb_lt in Hc. lia.
    + apply Nat.leb_gt in Hle.
      destruct (0 <? Z.of_nat (List.length (tl t)) - 2) eqn:Hc;
        [| apply Z.ltb_ge in Hc; lia].
      replace (Z.to_nat (Z.of_nat (List.length (tl t)) - 2))
        with (List.length (tl t) - 2)%nat by lia.
      apply (Hconv (assigned_names ManufacturerMonthWise vt (List.length (tl t)))).
      apply assigned_names_NoDup.
Qed.


(* ===================================================================== *)
(** ** The coercion of one cell *)
(* ===================================================================== *)

Lemma chars_str l : Py.chars (Py.str l) = l.
Proof. apply list_ascii_of_string_of_list_ascii. Qed.

Lemma chars_without_commas cell :
  Py.chars (Py.replace "," "" cell)
  = filter (fun c => negb (Ascii.eqb c ",")) (Py.chars cell).
Proof.
  unfold Py.replace. rewrite chars_str.
  change (Py.chars "") with (@nil ascii).
  induction (Py.chars cell) as [| c l IH]; cbn [flat_map filter]; [reflexivity |].
  destruct (Ascii.eqb c ","); cbn [negb app]; now rewrite IH.
Qed.

(** The three ways a cell can go. *)
Lemma coerce_cell_cases cell :
  match Pd.to_numeric_coerce (Py.replace "," "" cell) with
  | Pd.Finite q => coerce_cell cell = Ok (Pd.trunc q)
  | Pd.NaN => coerce_cell cell = Ok 0
  | Pd.Inf _ => coerce_cell cell = Raise IntCastingNaNError
  end.
Proof.
  unfold coerce_cell.
  destruct (Pd.to_numeric_coerce (Py.replace "," "" cell)); reflexivity.
Qed.

Lemma digit_facts c :
  Pd.is_digit c = true ->
  Pd.is_space c = false
  /\ (forall l, Pd.take_sign (c :: l) = (false, c :: l))
  /\ Ascii.eqb c "," = false
  /\ 0 <= Pd.digit_value c.
Proof.
  destruct c as [[] [] [] [] [] [] [] []]; intros H;
    try discriminate H; repeat split; try reflexivity;
    vm_compute; discriminate.
Qed.

Lemma span_digits_all ds :
  forallb Pd.is_digit ds = true -> Pd.span_digits ds = (ds, []).
Proof.
  induction ds as [| c ds IH]; simpl; intros H; [reflexivity |].
  apply andb_prop in H. destruct H as [Hc Hds].
  rewrite Hc, (IH Hds). reflexivity.
Qed.

Lemma digits_value_nonneg ds :
  forallb Pd.is_digit ds = true -> 0 <= Pd.digits_value ds.
Proof.
  unfold Pd.digits_value.
  assert (Hgen : forall acc, 0 <= acc -> forallb Pd.is_digit ds = true ->
            0 <= fold_left (fun a c => a * 10 + Pd.digit_value c) ds acc).
  { induction ds as [| c ds IH]; simpl; intros acc Hacc H; [exact Hacc |].
    apply andb_prop in H. destruct H as [Hc Hds].
    apply IH; [| exact Hds].
    destruct (digit_facts c Hc) as (_ & _ & _ & Hv). lia. }
  apply Hgen. lia.
Qed.

(** The scanner on a text of digits. *)
Lemma scan_decimal_digits ds :
  forallb Pd.is_digit ds = true ->
  Pd.scan_decimal ds =
  match ds with
  | [] => None
  | _ :: _ => Some (inject_Z (Pd.digits_value ds))
  end.
Proof.
  intros Hall. destruct ds as [| c ds']; [reflexivity |].
  pose proof Hall as Hall'. simpl in Hall'. apply andb_prop in Hall'.
  destruct Hall' as [Hc _].
  destruct (digit_facts c Hc) as (Hsp & Hsign & _ & _).
  unfold Pd.scan_decimal.
  replace (Pd.skip_spaces (c :: ds')) with (c :: ds')
    by (simpl; now rewrite Hsp).
  rewrite Hsign, (span_digits_all _ Hall).
  cbn [List.length Nat.add Nat.eqb Pd.skip_spaces].
  rewrite app_nil_r. unfold Pd.scale10. simpl (0 - Z.of_nat 0).
  cbn [Z.leb Z.compare Z.pow]. rewrite Z.mul_1_r. reflexivity.
Qed.

Lemma digits_of_cell cell :
  digits_and_commas cell = true ->
  filter (fun c => negb (Ascii.eqb c ",")) (Py.chars cell)
  = filter Pd.is_digit (Py.chars cell)
  /\ forallb Pd.is_digit (filter Pd.is_digit (Py.chars cell)) = true.
Proof.
  unfold digits_and_commas.
  induction (Py.chars cell) as [| c l IH]; simpl; intros H; [split; reflexivity |].
  apply andb_prop in H. destruct H as [Hc Hl]. destruct (IH Hl) as [IH1 IH2].
  destruct (Pd.is_digit c) eqn:Hd.
  - destruct (digit_facts c Hd) as (_ & _ & Hcomma & _).
    rewrite Hcomma. simpl. rewrite Hd, IH1. split; [reflexivity | exact IH2].
  - simpl in Hc. rewrite Hc. simpl. split; [exact IH1 | exact IH2].
Qed.

Lemma trunc_inject_Z z : Pd.trunc (inject_Z z) = z.
Proof. unfold Pd.trunc. simpl. apply Z.quot_1_r. Qed.

(** A cell of digits and separators is read as the number its digits
    spell, zero when it has no digit. *)
Lemma coerce_cell_digits cell :
  digits_and_commas cell = true ->
  coerce_cell cell = Ok (Pd.digits_value (filter Pd.is_digit (Py.chars cell)))
  /\ 0 <= Pd.digits_value (filter Pd.is_digit (Py.chars cell)).
Proof.
  intros H. destruct (digits_of_cell cell H) as [Hf Hall].
  split; [| now apply digits_value_nonneg].
  assert (Hstr : Py.replace "," "" cell
                 = Py.str (filter Pd.is_digit (Py.chars cell))).
  { rewrite <- Hf, <- chars_without_commas.
    symmetry. apply string_of_list_ascii_of_string. }
  unfold coerce_cell, Pd.to_numeric_coerce.
  rewrite chars_without_commas, Hf, (scan_decimal_digits _ Hall), Hstr.
  destruct (filter Pd.is_digit (Py.chars cell)) as [| c ds].
  - reflexivity.
  - simpl. now rewrite trunc_inject_Z.
Qed.

(* ===================================================================== *)
(** ** Properties of the comparator *)
(* ===================================================================== *)

(** Case analysis on the steps of a block that returned something. *)
Ltac run H :=
  repeat match type of H with
         | context [bind ?r _] =>
             let E := fresh "E" in
             destruct r eqn:E; cbn [bind] in H; try discriminate H
         | context [if ?b then _ else _] =>
             let E := fresh "E" in
             destruct b eqn:E; try discriminate H
         | catch (Ok _) = _ => cbn [catch] in H
         end.

Lemma monthly_comparison_shown w year tt vt m df c :
  monthly_comparison w year tt vt m df = Shown c ->
  exists joined, c = compare joined.
Proof.
  unfold monthly_comparison. intros H. run H; injection H as <-; eauto.
Qed.

Lemma year_over_year_shown w year tt vt m df c :
  year_over_year w year tt vt m df = Shown c ->
  exists joined, c = compare joined.
Proof.
  unfold year_over_year. intros H. cbv zeta in H. run H; injection H as <-; eauto.
Qed.

Lemma compare_rows joined r :
  In r (rows (compare joined)) -> change r = change_cell (current r) (previous r).
Proof.
  unfold compare. cbn [rows]. intros H. apply in_map_iff in H.
  destruct H as [[[k p] cu] [<- _]]. reflexivity.
Qed.

Lemma change_cell_zero curr : change_cell curr 0 = sentinel.
Proof. reflexivity. Qed.

Lemma last_char_app s c : last_char (s ++ String c "")%string = Some c.
Proof.
  induction s as [| a s IH]; [reflexivity |].
  simpl. rewrite IH. destruct (s ++ String c "")%string eqn:E; [| reflexivity].
  destruct s; discriminate E.
Qed.

(** A formatted percentage is never the placeholder. *)
Lemma format_pct_not_sentinel x : format_pct x <> sentinel.
Proof.
  intros H. apply (f_equal last_char) in H.
  unfold format_pct in H. rewrite last_char_app in H. discriminate H.
Qed.

Lemma compare_zero_baseline joined : zero_baseline_rule (compare joined).
Proof.
  split.
  - intros r Hin Hz. rewrite (compare_rows _ _ Hin), Hz. apply change_cell_zero.
  - unfold compare. cbn [previous_total overall delta]. intros ->. split; reflexivity.
Qed.

Lemma compare_overall_from_sums joined : overall_from_sums (compare joined).
Proof.
  unfold overall_from_sums, compare.
  cbn [rows current_total previous_total overall delta].
  split; [reflexivity |]. split; [reflexivity |]. split; [| split; [| reflexivity]].
  - intros Hnz. unfold overall_change, formula_on_sums.
    destruct (_ =? 0) eqn:E; [apply Z.eqb_eq in E; contradiction |].
    split; reflexivity.
  - intros ->. reflexivity.
Qed.

(** The cells of a change column, one by one. *)
Lemma change_columns_nth calculated i name cells :
  nth_error (change_columns calculated) i = Some (name, cells) ->
  exists prev_quarter prev_col curr_quarter curr_col,
    nth_error calculated i = Some (prev_quarter, prev_col)
    /\ nth_error calculated (S i) = Some (curr_quarter, curr_col)
    /\ name = (curr_quarter ++ " vs " ++ prev_quarter ++ " QoQ%")%string
    /\ cells = map (fun p => change_cell (fst p) (snd p)) (combine curr_col prev_col).
Proof.
  revert i. induction calculated as [| [pq pc] rest IH]; intros i H.
  - destruct i; discriminate H.
  - destruct rest as [| [cq cc] rest'].
    + destruct i; discriminate H.
    + destruct i as [| i].
      * cbn [change_columns nth_error] in H. injection H as <- <-.
        exists pq, pc, cq, cc. repeat split; reflexivity.
      * cbn [change_columns nth_error] in H.
        change (nth_error (change_columns ((cq, cc) :: rest')) i = Some (name, cells)) in H.
        apply IH in H. exact H.
Qed.


Lemma quarter_over_quarter_shown df t :
  quarter_over_quarter df = Shown t ->
  quarter_columns quarter_months df = Ok (quarters t)
  /\ (1 < List.length (quarters t))%nat
  /\ qoq_changes t = change_columns (quarters t)
  /\ latest_value t = sum (snd (last (quarters t) (""%string, [])))
  /\ latest_delta t = match last (qoq_changes t) (""%string, []) with
                      | (_, c :: _) => c
                      | (_, []) => sentinel
                      end.
Proof.
  unfold quarter_over_quarter. intros H. run H. injection H as <-.
  cbn [quarters qoq_changes latest_value latest_delta].
  apply Nat.ltb_lt in E3. repeat split; auto.
Qed.

Lemma zero_baseline_cell (curr_col prev_col : list Z) j cell :
  nth_error (map (fun p => change_cell (fst p) (snd p)) (combine curr_col prev_col)) j
    = Some cell ->
  nth_error prev_col j = Some 0 ->
  cell = sentinel.
Proof.
  revert prev_col j. induction curr_col as [| c cs IH]; intros [| p ps] j H Hp;
    try (destruct j; discriminate H).
  destruct j as [| j]; simpl in *.
  - injection Hp as ->. injection H as <-. reflexivity.
  - eapply IH; eauto.
Qed.

Example sample_frames :
  get_data Sample.world 2025 VehicleCategoryMonthWise None = Ok Sample.frame_2025
  /\ get_data Sample.world 2024 VehicleCategoryMonthWise None = Ok Sample.frame_2024
  /\ get_data Sample.world 2023 ManufacturerMonthWise None = Ok Sample.frame_2023.
Proof. repeat split; reflexivity. Qed.

(** C1, as far as it holds. In the MoM, January YoM, YoY and QoQ tables a
    row whose baseline is 0 shows the placeholder, which no formatted
    percentage equals; the overall change of the MoM, YoM and YoY blocks
    is 0, shown as 0.00%, when the previous total is 0. *)
Theorem zero_baseline_handling :
  (forall w year tt vt m df c,
      monthly_comparison w year tt vt m df = Shown c -> zero_baseline_rule c)
  /\ (forall w year tt vt m df c,
         year_over_year w year tt vt m df = Shown c -> zero_baseline_rule c)
  /\ (forall df t i name cells prev_quarter prev_col j cell,
         quarter_over_quarter df = Shown t ->
         nth_error (qoq_changes t) i = Some (name, cells) ->
         nth_error (quarters t) i = Some (prev_quarter, prev_col) ->
         nth_error cells j = Some cell ->
         nth_error prev_col j = Some 0 ->
         cell = sentinel)
  /\ (forall x, format_pct x <> sentinel).
Proof.
  split; [| split; [| split]].
  - intros w year tt vt m df c H.
    destruct (monthly_comparison_shown _ _ _ _ _ _ H) as [joined ->].
    apply compare_zero_baseline.
  - intros w year tt vt m df c H.
    destruct (year_over_year_shown _ _ _ _ _ _ H) as [joined ->].
    apply compare_zero_baseline.
  - intros df t i name cells pq pc j cell Ht Hcol Hq Hcell Hzero.
    destruct (quarter_over_quarter_shown _ Ht) as (_ & _ & Hch & _).
    rewrite Hch in Hcol. apply change_columns_nth in Hcol.
    destruct Hcol as (pq' & pc' & cq & cc & Hp & _ & _ & ->).
    rewrite Hq in Hp. injection Hp as <- <-.
    eapply zero_baseline_cell; eauto.
  - apply format_pct_not_sentinel.
Qed.

Lemma zero_baseline_handling_witness :
  zero_baseline_rule (compare [("BUS"%string, 100, 150); ("CAR"%string, 0, 40)]).
Proof.
  apply (proj1 zero_baseline_handling Sample.world 2025 VehicleCategoryMonthWise None
           "Feb"%string Sample.frame_2025).
  reflexivity.
Defined.

(** C1 as stated fails for the overall change: with nothing registered in
    the previous month the metric shows 0.00%, not the placeholder. *)
Lemma zero_previous_total_counterexample :
  exists c,
    monthly_comparison Sample.world 2023 ManufacturerMonthWise None "Feb" Sample.frame_2023
      = Shown c
    /\ previous_total c = 0
    /\ delta c = "0.00%"%string
    /\ delta c <> sentinel.
Proof.
  eexists. split; [reflexivity |]. repeat split. discriminate.
Qed.

(** C7, as far as it holds. In the MoM, January YoM and YoY blocks the two
    totals are the sums of the two compared columns, and the overall change
    is the percentage formula on these sums when the previous sum is not 0,
    and 0 when it is; the metric shows it with two decimals. *)
Theorem overall_change_from_column_sums :
  (forall w year tt vt m df c,
      monthly_comparison w year tt vt m df = Shown c -> overall_from_sums c)
  /\ (forall w year tt vt m df c,
         year_over_year w year tt vt m df = Shown c -> overall_from_sums c).
Proof.
  split; intros w year tt vt m df c H.
  - destruct (monthly_comparison_shown _ _ _ _ _ _ H) as [joined ->].
    apply compare_overall_from_sums.
  - destruct (year_over_year_shown _ _ _ _ _ _ H) as [joined ->].
    apply compare_overall_from_sums.
Qed.

Lemma overall_change_from_column_sums_witness :
  overall_from_sums
    (compare [("BUS"%string, 0, 150); ("CAR"%string, 1, 40); ("VAN"%string, 2, 0)]).
Proof.
  apply (proj2 overall_change_from_column_sums Sample.world 2025
           VehicleCategoryMonthWise None (Some "Feb"%string) Sample.frame_2025).
  reflexivity.
Defined.

(** The overall change is not the mean of the row changes: rows of +50%
    and 0% on unequal baselines give 12.50%, not 25%. *)
Example overall_is_not_the_row_average :
  let c := compare [("A"%string, 100, 150); ("B"%string, 300, 300)] in
  map change (rows c) = ["50.00%"; "0.00%"]%string
  /\ delta c = "12.50%"%string.
Proof. split; reflexivity. Qed.

(** C7 as stated fails where the previous sum is 0: the overall change is
    the number 0 while the formula on the sums divides by zero. The QoQ
    block has no change of sums at all: the delta of its metric is the
    change of the first row, here -33.33% beside totals that give 522.22%. *)
Lemma overall_change_counterexample :
  (exists c,
      monthly_comparison Sample.world 2023 ManufacturerMonthWise None "Feb" Sample.frame_2023
        = Shown c
      /\ previous_total c = 0
      /\ overall c = 0%Q
      /\ formula_on_sums (current_total c) (previous_total c) = Pd.Inf false)
  /\ (exists t,
         quarter_over_quarter Sample.frame_2024 = Shown t
         /\ map (fun q => sum (snd q)) (quarters t) = [9; 9; 9; 56]
         /\ latest_value t = 56
         /\ latest_delta t = "-33.33%"%string
         /\ format_pct (pct_change 56 9) = "522.22%"%string).
Proof.
  split; eexists; (split; [reflexivity |]); repeat split.
Qed.


(* ===================================================================== *)
(** ** Missing comparison columns *)
(* ===================================================================== *)

Lemma column0_nonempty (df : DataFrame) :
  df <> [] -> exists c, column0 df = Ok c.
Proof.
  destruct df as [| [l s] df]; [contradiction |]. intros _. now exists l.
Qed.

Lemma data_col_missing sm m df prev_df :
  month_selected sm = Some m ->
  has_column m df = false \/ has_column m prev_df = false ->
  data_col sm df prev_df = "TOTAL"%string.
Proof.
  intros Hm H. unfold data_col. rewrite Hm.
  destruct H as [H | H]; rewrite H; [| rewrite andb_false_r]; reflexivity.
Qed.

(** C4, as far as it holds. The MoM comparison without its previous or
    selected month column, and the January YoM comparison without the Jan
    column or the previous December column, give a notice and no table. The
    YoY comparison of a selected month that either table lacks is the
    comparison of the TOTAL columns, the one made when no month is
    selected. *)
Theorem missing_column_handling :
  (forall w year tt vt m df i,
      Py.index m month_names = Ok (S i) ->
      df <> [] ->
      has_column (nth i month_names ""%string) df = false \/ has_column m df = false ->
      monthly_comparison w year tt vt m df = Info MoMDataNotAvailable)
  /\ (forall w year tt vt df prev_df,
         df <> [] ->
         get_data w (year - 1) tt vt = Ok prev_df ->
         has_column "Jan" df = false \/ has_column "Dec" prev_df = false ->
         monthly_comparison w year tt vt "Jan" df = Info YoMDataNotAvailable)
  /\ (forall w year tt vt sm m df prev_df,
         get_data w (year - 1) tt vt = Ok prev_df ->
         month_selected sm = Some m ->
         has_column m df = false \/ has_column m prev_df = false ->
         data_col sm df prev_df = "TOTAL"%string
         /\ year_over_year w year tt vt sm df = year_over_year w year tt vt None df).
Proof.
  split; [| split].
  - intros w year tt vt m df i Hidx Hne Hmiss.
    unfold monthly_comparison. rewrite Hidx. cbn [bind].
    destruct (column0_nonempty Hne) as [key ->]. cbn [bind].
    change (0 <? S i)%nat with true. cbv iota zeta.
    replace (S i - 1)%nat with i by lia.
    destruct Hmiss as [H | H]; rewrite H; [| rewrite andb_false_r]; reflexivity.
  - intros w year tt vt df prev_df Hne Hprev Hmiss.
    unfold monthly_comparison. cbn [Py.index month_names String.eqb Ascii.eqb Bool.eqb bind].
    destruct (column0_nonempty Hne) as [key ->]. cbn [bind].
    change (0 <? 0)%nat with false. cbv iota zeta.
    rewrite Hprev. cbn [bind].
    destruct Hmiss as [H | H]; rewrite H; [| rewrite andb_false_r]; reflexivity.
  - intros w year tt vt sm m df prev_df Hprev Hm Hmiss.
    pose proof (data_col_missing _ _ _ Hm Hmiss) as Hcol.
    split; [exact Hcol |].
    unfold year_over_year. cbv zeta. rewrite Hprev. cbn [bind].
    rewrite Hcol. reflexivity.
Qed.

Lemma missing_column_handling_witness :
  monthly_comparison Sample.world 2025 VehicleCategoryMonthWise None "Apr" Sample.frame_2025
  = Info MoMDataNotAvailable.
Proof.
  apply (proj1 missing_column_handling Sample.world 2025 VehicleCategoryMonthWise None
           "Apr"%string Sample.frame_2025 2%nat).
  - reflexivity.
  - discriminate.
  - right. reflexivity.
Defined.

(** C4 as stated fails for YoY: August is selected and the 2025 table has no
    August column, yet the block shows a numeric comparison, of the TOTAL
    columns of the two years. *)
Lemma missing_month_counterexample :
  has_column "Aug" Sample.frame_2025 = false
  /\ exists c,
      year_over_year Sample.world 2025 VehicleCategoryMonthWise None (Some "Aug"%string)
        Sample.frame_2025 = Shown c
      /\ map (fun r => (category r, previous r, current r, change r)) (rows c)
         = [("BUS", 0, 250, sentinel); ("CAR", 11, 1250, "11263.64%");
            ("VAN", 72, 0, "-100.00%")]%string.
Proof.
  split; [reflexivity |]. eexists. split; reflexivity.
Qed.


(* ===================================================================== *)
(** ** The outer join *)
(* ===================================================================== *)

Section OuterJoin.

Variables current_data prev_data : list (string * Z).

Lemma insert_key_perm k l : Permutation (insert_key k l) (k :: l).
Proof.
  induction l as [| x l IH]; simpl; [constructor; constructor |].
  destruct (String.leb k x); [apply Permutation_refl |].
  eapply perm_trans; [apply perm_skip, IH | apply perm_swap].
Qed.

Lemma sort_keys_perm l : Permutation (sort_keys l) l.
Proof.
  induction l as [| x l IH]; simpl; [constructor |].
  eapply perm_trans; [apply insert_key_perm | now apply perm_skip].
Qed.

Lemma values_of_absent k (t : list (string * Z)) :
  ~ In k (map fst t) -> values_of k t = [].
Proof.
  unfold values_of. induction t as [| [k' v'] t IH]; simpl; intros H; [reflexivity |].
  destruct (String.eqb k' k) eqn:E.
  - apply String.eqb_eq in E. exfalso. apply H. now left.
  - apply IH. intros Hin. apply H. now right.
Qed.

Lemma values_of_present k v (t : list (string * Z)) :
  NoDup (map fst t) -> In (k, v) t -> values_of k t = [v].
Proof.
  induction t as [| [k' v'] t IH]; simpl; intros Hnd Hin; [contradiction |].
  inversion Hnd as [| ? ? Hnotin Hnd']; subst.
  unfold values_of. simpl. destruct Hin as [[= -> ->] | Hin].
  - rewrite String.eqb_refl. simpl. f_equal.
    now apply values_of_absent.
  - destruct (String.eqb k' k) eqn:E.
    + apply String.eqb_eq in E. subst k'. exfalso. apply Hnotin.
      apply in_map_iff. now exists (k, v).
    + now apply IH.
Qed.

Lemma join_key_category k l r row :
  In row (join_key k l r) -> fst (fst row) = k.
Proof.
  unfold join_key. intros H.
  destruct (values_of k l) as [| a ls]; [| destruct (values_of k r) as [| b rs]].
  - apply in_map_iff in H. destruct H as [x [<- _]]. reflexivity.
  - apply in_map_iff in H. destruct H as [x [<- _]]. reflexivity.
  - apply in_flat_map in H. destruct H as [x [_ H]].
    apply in_map_iff in H. destruct H as [y [<- _]]. reflexivity.
Qed.

Lemma merged_rows_category row :
  In row (merged_rows current_data prev_data) ->
  In (fst (fst row)) (map fst current_data) \/ In (fst (fst row)) (map fst prev_data).
Proof.
  unfold merged_rows, merge_outer. intros H.
  apply in_map_iff in H. destruct H as [[[k l] r] [<- H]].
  apply in_flat_map in H. destruct H as [k' [Hk' H]].
  apply join_key_category in H. simpl in H. subst k'. simpl.
  apply (Permutation_in _ (sort_keys_perm _)) in Hk'.
  apply nodup_In in Hk'. now apply in_app_or in Hk'.
Qed.

(** In a list of groups indexed by distinct keys, the rows of one key are
    its group. *)
Lemma filter_groups (g : string -> list (string * option Z * option Z)) k keys :
  (forall k' row, In row (g k') -> fst (fst row) = k') ->
  NoDup keys -> In k keys ->
  filter (fun row => String.eqb (fst (fst row)) k) (flat_map g keys) = g k.
Proof.
  intros Hg.
  assert (Hall : forall k', filter (fun row => String.eqb (fst (fst row)) k) (g k')
                            = if String.eqb k' k then g k' else []).
  { intros k'. pose proof (Hg k') as Hk'.
    induction (g k') as [| row rows IH]; simpl; [now destruct (String.eqb k' k) |].
    rewrite (Hk' row) by now left.
    rewrite IH by (intros; apply Hk'; now right).
    destruct (String.eqb k' k); reflexivity. }
  induction keys as [| k' keys IH]; intros Hnd Hin; [contradiction |].
  inversion Hnd as [| ? ? Hnotin Hnd']; subst.
  simpl. rewrite filter_app, Hall.
  destruct Hin as [-> | Hin].
  - rewrite String.eqb_refl.
    assert (Hrest : filter (fun row => String.eqb (fst (fst row)) k) (flat_map g keys) = []).
    { clear IH Hnd Hnd'. induction keys as [| k2 keys IH2]; simpl; [reflexivity |].
      rewrite filter_app, Hall.
      destruct (String.eqb k2 k) eqn:E.
      - apply String.eqb_eq in E. subst. exfalso. apply Hnotin. now left.
      - apply IH2. intros Hin. apply Hnotin. now right. }
    rewrite Hrest. apply app_nil_r.
  - destruct (String.eqb k' k) eqn:E.
    + apply String.eqb_eq in E. subst. contradiction.
    + simpl. now apply IH.
Qed.

Lemma rows_of_category_merged k :
  NoDup (sort_keys (nodup string_dec (map fst current_data ++ map fst prev_data))) ->
  In k (map fst current_data ++ map fst prev_data) ->
  rows_of_category k (merged_rows current_data prev_data)
  = map (fun row => match row with (k', l, r) => (k', fillna r, fillna l) end)
        (join_key k current_data prev_data).
Proof.
  intros Hnd Hin. unfold rows_of_category, merged_rows, merge_outer.
  rewrite <- (filter_groups (fun k' => join_key k' current_data prev_data) k
                (keys := sort_keys (nodup string_dec (map fst current_data ++ map fst prev_data)))).
  - induction (flat_map _ _) as [| [[k' l] r] rows IH]; simpl; [reflexivity |].
    destruct (String.eqb k' k); simpl; now rewrite IH.
  - intros k' row. apply join_key_category.
  - exact Hnd.
  - apply (Permutation_in _ (Permutation_sym (sort_keys_perm _))).
    now apply nodup_In.
Qed.

Lemma in_keys_value k (t : list (string * Z)) :
  In k (map fst t) -> exists v, In (k, v) t.
Proof.
  intros H. apply in_map_iff in H. destruct H as [[k' v] [Hk Hin]].
  simpl in Hk. subst. now exists v.
Qed.

Lemma in_value_keys k v (t : list (string * Z)) : In (k, v) t -> In k (map fst t).
Proof. intros H. apply in_map_iff. now exists (k, v). Qed.

(** The join of two tables without repeated category. *)
Lemma merged_rows_unique k :
  NoDup (map fst current_data) -> NoDup (map fst prev_data) ->
  In k (map fst current_data) \/ In k (map fst prev_data) ->
  exists prev curr,
    rows_of_category k (merged_rows current_data prev_data) = [(k, prev, curr)]
    /\ (forall v, In (k, v) current_data -> curr = v)
    /\ (~ In k (map fst current_data) -> curr = 0)
    /\ (forall v, In (k, v) prev_data -> prev = v)
    /\ (~ In k (map fst prev_data) -> prev = 0).
Proof.
  intros Hc Hp Hin.
  rewrite rows_of_category_merged.
  2:{ apply (Permutation_NoDup (Permutation_sym (sort_keys_perm _))).
      apply NoDup_nodup. }
  2:{ apply in_or_app. exact Hin. }
  unfold join_key.
  destruct (in_dec string_dec k (map fst current_data)) as [Hkc | Hkc];
    destruct (in_dec string_dec k (map fst prev_data)) as [Hkp | Hkp].
  - destruct (in_keys_value _ _ Hkc) as [vc Hvc].
    destruct (in_keys_value _ _ Hkp) as [vp Hvp].
    rewrite (values_of_present _ _ _ Hc Hvc), (values_of_present _ _ _ Hp Hvp).
    exists vp, vc. simpl. split; [reflexivity |]. repeat split; try contradiction.
    + intros v Hv. pose proof (values_of_present _ _ _ Hc Hv) as E.
      rewrite (values_of_present _ _ _ Hc Hvc) in E. now injection E.
    + intros v Hv. pose proof (values_of_present _ _ _ Hp Hv) as E.
      rewrite (values_of_present _ _ _ Hp Hvp) in E. now injection E.
  - destruct (in_keys_value _ _ Hkc) as [vc Hvc].
    rewrite (values_of_present _ _ _ Hc Hvc), (values_of_absent _ _ Hkp).
    exists 0, vc. simpl. split; [reflexivity |]. repeat split; try contradiction.
    + intros v Hv. pose proof (values_of_present _ _ _ Hc Hv) as E.
      rewrite (values_of_present _ _ _ Hc Hvc) in E. now injection E.
    + intros v Hv. exfalso. apply Hkp. eapply in_value_keys; eauto.
  - destruct (in_keys_value _ _ Hkp) as [vp Hvp].
    rewrite (values_of_absent _ _ Hkc), (values_of_present _ _ _ Hp Hvp).
    exists vp, 0. simpl. split; [reflexivity |]. repeat split; try contradiction.
    + intros v Hv. exfalso. apply Hkc. eapply in_value_keys; eauto.
    + intros v Hv. pose proof (values_of_present _ _ _ Hp Hv) as E.
      rewrite (values_of_present _ _ _ Hp Hvp) in E. now injection E.
  - destruct Hin; contradiction.
Qed.

End OuterJoin.


Lemma joined_rows_compare joined : joined_rows (compare joined) = joined.
Proof.
  unfold joined_rows, compare. cbn [rows]. rewrite map_map.
  induction joined as [| [[k p] c] joined IH]; simpl; [reflexivity |].
  now rewrite IH.
Qed.

Lemma year_over_year_joined w year tt vt sm df c :
  year_over_year w year tt vt sm df = Shown c ->
  exists key prev_df current_data prev_data,
    column0 df = Ok key
    /\ get_data w (year - 1) tt vt = Ok prev_df
    /\ two_columns key (data_col sm df prev_df) df = Ok current_data
    /\ two_columns key (data_col sm df prev_df) prev_df = Ok prev_data
    /\ joined_rows c = merged_rows current_data prev_data.
Proof.
  unfold year_over_year. cbv zeta. intros H. run H. injection H as <-.
  do 4 eexists. rewrite joined_rows_compare. repeat split; eauto.
Qed.

Lemma january_joined w year tt vt df c :
  monthly_comparison w year tt vt "Jan" df = Shown c ->
  exists key prev_df current_data prev_data,
    column0 df = Ok key
    /\ get_data w (year - 1) tt vt = Ok prev_df
    /\ two_columns key "Jan" df = Ok current_data
    /\ two_columns key "Dec" prev_df = Ok prev_data
    /\ joined_rows c = merged_rows current_data prev_data.
Proof.
  unfold monthly_comparison.
  cbn [Py.index month_names String.eqb Ascii.eqb Bool.eqb bind].
  intros H. destruct (column0 df) as [key |] eqn:Hkey; [| discriminate H].
  cbn [bind] in H. change (0 <? 0)%nat with false in H. cbv iota zeta in H.
  run H. injection H as <-.
  do 4 eexists. rewrite joined_rows_compare. repeat split; eauto.
Qed.

(** C5, as far as it holds. The YoY and January YoM tables are the outer
    join of the two (category, value) tables on equal category texts; every
    category of the result comes from one of the sides; and when no side
    repeats a category, every category of either side has exactly one row,
    with the value of each side that has it and 0 for a side that lacks
    it. *)
Theorem outer_join_completeness :
  (forall current_data prev_data k,
      NoDup (map fst current_data) -> NoDup (map fst prev_data) ->
      In k (map fst current_data) \/ In k (map fst prev_data) ->
      exists prev curr,
        rows_of_category k (merged_rows current_data prev_data) = [(k, prev, curr)]
        /\ (forall v, In (k, v) current_data -> curr = v)
        /\ (~ In k (map fst current_data) -> curr = 0)
        /\ (forall v, In (k, v) prev_data -> prev = v)
        /\ (~ In k (map fst prev_data) -> prev = 0))
  /\ (forall current_data prev_data row,
         In row (merged_rows current_data prev_data) ->
         In (fst (fst row)) (map fst current_data)
         \/ In (fst (fst row)) (map fst prev_data))
  /\ (forall w year tt vt sm df c,
         year_over_year w year tt vt sm df = Shown c ->
         exists key prev_df current_data prev_data,
           column0 df = Ok key
           /\ get_data w (year - 1) tt vt = Ok prev_df
           /\ two_columns key (data_col sm df prev_df) df = Ok current_data
           /\ two_columns key (data_col sm df prev_df) prev_df = Ok prev_data
           /\ joined_rows c = merged_rows current_data prev_data)
  /\ (forall w year tt vt df c,
         monthly_comparison w year tt vt "Jan" df = Shown c ->
         exists key prev_df current_data prev_data,
           column0 df = Ok key
           /\ get_data w (year - 1) tt vt = Ok prev_df
           /\ two_columns key "Jan" df = Ok current_data
           /\ two_columns key "Dec" prev_df = Ok prev_data
           /\ joined_rows c = merged_rows current_data prev_data).
Proof.
  split; [| split; [| split]].
  - intros. now apply merged_rows_unique.
  - intros. now apply merged_rows_category.
  - intros. eapply year_over_year_joined; eauto.
  - intros. eapply january_joined; eauto.
Qed.

Lemma outer_join_completeness_witness :
  exists prev curr,
    rows_of_category "VAN"
      (merged_rows [("BUS"%string, 250); ("CAR"%string, 1250)]
                   [("CAR"%string, 11); ("VAN"%string, 72)])
    = [("VAN"%string, prev, curr)]
    /\ (forall v, In ("VAN"%string, v) [("BUS"%string, 250); ("CAR"%string, 1250)] -> curr = v)
    /\ (~ In "VAN"%string (map fst [("BUS"%string, 250); ("CAR"%string, 1250)]) -> curr = 0)
    /\ (forall v, In ("VAN"%string, v) [("CAR"%string, 11); ("VAN"%string, 72)] -> prev = v)
    /\ (~ In "VAN"%string (map fst [("CAR"%string, 11); ("VAN"%string, 72)]) -> prev = 0).
Proof.
  apply (proj1 outer_join_completeness
           [("BUS"%string, 250); ("CAR"%string, 1250)]
           [("CAR"%string, 11); ("VAN"%string, 72)] "VAN"%string).
  - apply distinct_NoDup. reflexivity.
  - apply distinct_NoDup. reflexivity.
  - right. simpl. auto.
Defined.

(** C5 as stated fails when a side repeats a category: the join pairs
    every row of one side with every row of the other that has the same
    category, so the category has two rows here. *)
Lemma repeated_category_counterexample :
  merged_rows [("CAR"%string, 10); ("CAR"%string, 20)] [("CAR"%string, 5)]
  = [("CAR"%string, 5, 10); ("CAR"%string, 5, 20)]
  /\ List.length (rows_of_category "CAR"
        (merged_rows [("CAR"%string, 10); ("CAR"%string, 20)] [("CAR"%string, 5)])) = 2%nat.
Proof. split; reflexivity. Qed.


(* ===================================================================== *)
(** ** Quarter over quarter *)
(* ===================================================================== *)

Section Quarters.

Variable df : DataFrame.
Hypothesis df_normalized : normalized df = true.

Lemma normalized_shape :
  exists key cells cols,
    df = (Name key, Object cells) :: cols
    /\ Py.mem key month_names = false
    /\ n_rows df = List.length cells
    /\ forallb (fun c => match c with
                         | (Name _, Int64 vs) => Nat.eqb (List.length vs) (List.length cells)
                         | _ => false
                         end) cols = true.
Proof.
  unfold normalized in df_normalized.
  destruct df as [| [[i | key] [cells | vs]] cols]; try discriminate.
  apply andb_prop in df_normalized. destruct df_normalized as [Hk Hc].
  exists key, cells, cols. repeat split; auto.
  now destruct (Py.mem key month_names).
Qed.

(** A month column of the frame is an integer column of full length. *)
Lemma month_column m :
  In m month_names -> has_column m df = true ->
  exists vs, int_column m df = Ok vs /\ List.length vs = n_rows df.
Proof.
  destruct normalized_shape as (key & cells & cols & -> & Hkey & Hrows & Hcols).
  intros Hm Hhas. rewrite Hrows. clear Hrows.
  assert (Hne : String.eqb key m = false).
  { destruct (String.eqb key m) eqn:E; [| reflexivity].
    apply String.eqb_eq in E. subst key.
    apply mem_In in Hm. rewrite Hm in Hkey. discriminate. }
  unfold has_column, columns in Hhas. cbn [map fst existsb label_eqb] in Hhas.
  rewrite String.eqb_sym, Hne in Hhas. cbn [orb] in Hhas.
  unfold int_column. cbn [get_column label_eqb]. rewrite Hne.
  clear df_normalized.
  induction cols as [| [l s] cols IH]; [discriminate Hhas |].
  cbn [forallb] in Hcols. apply andb_prop in Hcols. destruct Hcols as [Hc Hcols].
  cbn [map fst existsb] in Hhas. cbn [get_column].
  destruct l as [i | name]; [discriminate Hc |].
  destruct s as [cs | vs]; [discriminate Hc |].
  cbn [label_eqb] in *. rewrite (String.eqb_sym name m).
  destruct (String.eqb m name).
  - cbn [bind]. exists vs. split; [reflexivity |]. now apply Nat.eqb_eq.
  - apply IH; assumption.
Qed.

Lemma add_columns_seq (g : nat -> Z) (vs : list Z) :
  forall s,
    add_columns vs (map g (seq s (List.length vs)))
    = map (fun j => nth (j - s) vs 0 + g j) (seq s (List.length vs)).
Proof.
  unfold add_columns. induction vs as [| v vs IH]; intros s; [reflexivity |].
  cbn [List.length seq map combine fst snd]. rewrite Nat.sub_diag. cbn [nth].
  f_equal. rewrite IH. apply map_ext_in. intros j Hj. apply in_seq in Hj.
  replace (j - s)%nat with (S (j - S s)) by lia. reflexivity.
Qed.

Lemma repeat_seq (n s : nat) : repeat 0 n = map (fun _ => 0) (seq s n).
Proof.
  revert s. induction n as [| n IH]; intros s; [reflexivity |].
  simpl. f_equal. apply IH.
Qed.

(** The row sums the code computes are the sums of the month values. *)
Lemma sum_axis1_months names :
  (forall m, In m names -> In m month_names /\ has_column m df = true) ->
  sum_axis1 (n_rows df) names df
  = Ok (map (fun j => sum (map (fun m => month_value df m j) names))
            (seq 0 (n_rows df))).
Proof.
  induction names as [| m names IH]; intros Hnames.
  - cbn [sum_axis1 map sum fold_right]. f_equal. apply repeat_seq.
  - cbn [sum_axis1].
    destruct (Hnames m (or_introl eq_refl)) as [Hm Hhas].
    destruct (month_column Hm Hhas) as [vs [Hvs Hlen]].
    rewrite Hvs, IH by (intros m' Hin; apply Hnames; now right). cbn [bind].
    f_equal. rewrite <- Hlen, add_columns_seq.
    apply map_ext. intros j. cbn [map]. unfold sum at 2. cbn [fold_right].
    fold (sum (map (fun m0 => month_value df m0 j) names)).
    unfold month_value at 2. rewrite Hvs, Nat.sub_0_r. reflexivity.
Qed.

Lemma existing_months_nil months :
  filter (fun m => has_column m df) months = []
  <-> existsb (fun m => has_column m df) months = false.
Proof.
  induction months as [| m months IH]; simpl; [tauto |].
  destruct (has_column m df); simpl; [| exact IH].
  split; discriminate.
Qed.

Lemma quarter_columns_included qs :
  (forall q m, In q qs -> In m (snd q) -> In m month_names) ->
  quarter_columns qs df
  = Ok (map (fun q =>
               (fst q,
                map (fun j => sum (map (fun m => month_value df m j)
                                       (filter (fun m => has_column m df) (snd q))))
                    (seq 0 (n_rows df))))
            (filter (fun q => existsb (fun m => has_column m df) (snd q)) qs)).
Proof.
  induction qs as [| [q months] qs IH]; intros Hqs; [reflexivity |].
  cbn [quarter_columns filter snd].
  assert (IH' := IH (fun q' m Hq Hm => Hqs q' m (or_intror Hq) Hm)).
  destruct (filter (fun m => has_column m df) months) as [| m0 ms] eqn:Hex.
  - apply existing_months_nil in Hex. rewrite Hex. exact IH'.
  - assert (Hsome : existsb (fun m => has_column m df) months = true).
    { destruct (existsb _ months) eqn:E; [reflexivity |].
      apply existing_months_nil in E. rewrite E in Hex. discriminate. }
    rewrite Hsome. rewrite <- Hex.
    rewrite sum_axis1_months.
    + rewrite IH'. reflexivity.
    + intros m Hin. apply filter_In in Hin. destruct Hin as [Hin Hhas].
      split; [| exact Hhas]. apply (Hqs (q, months) m); [now left | exact Hin].
Qed.

Lemma quarter_columns_spec :
  quarter_columns quarter_months df = Ok (included_quarters df).
Proof.
  unfold included_quarters. apply quarter_columns_included.
  intros q m Hq Hm. unfold quarter_months in Hq. simpl in Hq.
  repeat (destruct Hq as [<- | Hq];
          [simpl in Hm; unfold month_names; simpl; tauto |]).
  contradiction.
Qed.




End Quarters.


(** A year in progress: four months give Q1 and a partial Q2, and one
    change column. *)
Example partial_year_quarters :
  let df := [(Name "Category", Object ["BUS"]);
             (Name "Jan", Int64 [10]); (Name "Feb", Int64 [20]);
             (Name "Mar", Int64 [30]); (Name "Apr", Int64 [90]);
             (Name "TOTAL", Int64 [150])]%string in
  exists t,
    quarter_over_quarter df = Shown t
    /\ quarters t = [("Q1 (Jan-Mar)", [60]); ("Q2 (Apr-Jun)", [90])]%string
    /\ qoq_changes t = [("Q2 (Apr-Jun) vs Q1 (Jan-Mar) QoQ%", ["50.00%"])]%string.
Proof. eexists. repeat split. Qed.


(* ===================================================================== *)
(** ** The frames [get_data] returns are normalized *)
(* ===================================================================== *)

Lemma mapM_length {A B : Type} (f : A -> result B) (l : list A) (bs : list B) :
  mapM f l = Ok bs -> List.length bs = List.length l.
Proof.
  intros H. apply mapM_Forall2 in H.
  induction H; simpl; [reflexivity | now f_equal].
Qed.

Lemma convert_columns_shape (n : nat) (cs : RawFrame) :
  forall cols,
    Forall (fun c => (exists name, fst c = Name name) /\ List.length (snd c) = n) cs ->
    mapM convert_column cs = Ok cols ->
    forallb (fun c => match c with
                      | (Name _, Int64 vs) => Nat.eqb (List.length vs) n
                      | _ => false
                      end) cols = true.
Proof.
  induction cs as [| [l cells] cs IH]; intros cols Hcs H.
  - injection H as <-. reflexivity.
  - inversion Hcs as [| ? ? [[name Hname] Hlen] Hcs']; subst.
    cbn [mapM] in H. unfold convert_column at 1 in H. cbn [fst snd] in *.
    destruct (mapM coerce_cell cells) as [vs |] eqn:Hvs; [| discriminate H].
    cbn [bind] in H.
    destruct (mapM convert_column cs) as [cols' |] eqn:Hcols; [| discriminate H].
    injection H as <-. cbn [forallb]. rewrite Hname.
    rewrite (mapM_length _ _ Hvs), Nat.eqb_refl. cbn [andb].
    now apply IH.
Qed.

Lemma named_columns_shape (n : nat) (names : list string) (raw : RawFrame) :
  Forall (fun c => List.length (snd c) = n) raw ->
  Forall (fun c => (exists name, fst c = Name name) /\ List.length (snd c) = n)
         (combine (map Name names) (map snd raw)).
Proof.
  revert raw. induction names as [| x names IH]; intros [| c raw] H; simpl;
    try constructor.
  - inversion H; subst. split; [now exists x | reflexivity].
  - inversion H; subst. now apply IH.
Qed.

Lemma assigned_names_key tt vt n :
  named_selection tt vt = true ->
  exists key rest,
    assigned_names tt vt n = key :: rest /\ Py.mem key month_names = false.
Proof.
  destruct tt, vt as [[] |]; try discriminate; intros _;
    eexists; eexists; (split; [reflexivity | reflexivity]).
Qed.

(** Row count and column kinds of what [get_data] returns, for a table
    whose columns all have [n] cells. *)
Lemma get_data_normalized (w : World) year tt vt t n df :
  named_selection tt vt = true ->
  select_table (load_tables w (html_path year tt vt)) = Ok t ->
  Forall (fun c => List.length (snd c) = n) t ->
  get_data w year tt vt = Ok df ->
  df = [] \/ (normalized df = true /\ n_rows df = n).
Proof.
  intros Hnamed Hsel Hrect Hget.
  rewrite (get_data_named _ _ _ _ Hnamed Hsel) in Hget.
  destruct (is_month_wise tt && _)%bool; [left; now injection Hget |].
  right.
  destruct (assigned_names_key tt vt (List.length (tl t)) Hnamed)
    as (key & rest & Hnames & Hkey).
  rewrite Hnames in Hget. unfold set_columns in Hget.
  destruct (Nat.eqb _ _); [| discriminate Hget]. cbn [bind] in Hget.
  assert (Hrect' : Forall (fun c => List.length (snd c) = n) (tl t)).
  { destruct t; [constructor | now inversion Hrect]. }
  destruct (tl t) as [| [l0 c0] others]; [discriminate Hget |].
  apply Forall_cons_iff in Hrect'. destruct Hrect' as [Hc0 Hothers].
  cbn [map combine snd converted] in Hget.
  destruct (mapM convert_column _) as [cols |] eqn:Hcols; [| discriminate Hget].
  injection Hget as <-. cbn [normalized n_rows series_len].
  split; [| exact Hc0]. rewrite Hkey. cbn [negb andb].
  cbn [snd] in Hc0. rewrite Hc0.
  eapply convert_columns_shape; [| exact Hcols].
  now apply named_columns_shape.
Qed.

Example sample_frames_normalized :
  normalized Sample.frame_2025 = true
  /\ normalized Sample.frame_2024 = true
  /\ normalized Sample.frame_2023 = true.
Proof. repeat split. Qed.


(* ===================================================================== *)
(** ** More on the normalizer: outcomes of [get_data] *)
(* ===================================================================== *)

Lemma select_table_total (tables : list RawFrame) :
  tables <> [] -> exists t, select_table tables = Ok t.
Proof.
  intros Hne. unfold select_table, table_index.
  destruct (nth_error tables _) as [t |] eqn:Hnth; [now exists t |].
  apply nth_error_None in Hnth.
  destruct tables as [| t0 ts]; [contradiction |]. simpl in Hnth.
  destruct (5 <? S (List.length ts))%nat eqn:Hlt.
  - apply Nat.ltb_lt in Hlt. lia.
  - lia.
Qed.

(** [get_data] on a named selection, by the column count of the selected
    table. *)
Lemma get_data_outcome (w : World) year tt vt t :
  named_selection tt vt = true ->
  select_table (load_tables w (html_path year tt vt)) = Ok t ->
  get_data w year tt vt =
  let names := assigned_names tt vt (List.length (tl t)) in
  if is_month_wise tt && (List.length (tl t) <=? 2)%nat then Ok empty_frame
  else if Nat.eqb (List.length names) (List.length (tl t))
       then converted (combine (map Name names) (map snd (tl t)))
       else Raise (LengthMismatch (List.length (tl t)) (List.length names)).
Proof.
  intros Hnamed Hsel. rewrite (get_data_named _ _ _ _ Hnamed Hsel).
  cbv zeta. destruct (is_month_wise tt && _)%bool; [reflexivity |].
  unfold set_columns. destruct (Nat.eqb _ _); reflexivity.
Qed.

Lemma coerce_cell_raise cell e :
  coerce_cell cell = Raise e ->
  e = IntCastingNaNError
  /\ exists negative, Pd.to_numeric_coerce (Py.replace "," "" cell) = Pd.Inf negative.
Proof.
  intros H. pose proof (coerce_cell_cases cell) as Hc.
  destruct (Pd.to_numeric_coerce (Py.replace "," "" cell)) as [q | b |];
    rewrite Hc in H; try discriminate H.
  injection H as <-. split; [reflexivity | now exists b].
Qed.

Lemma mapM_raise {A B : Type} (f : A -> result B) (l : list A) e :
  mapM f l = Raise e -> exists a, In a l /\ f a = Raise e.
Proof.
  induction l as [| a l IH]; simpl; intros H; [discriminate H |].
  destruct (f a) as [b |] eqn:Ha; simpl in H.
  - destruct (mapM f l) as [bs |]; simpl in H; [discriminate H |].
    injection H as <-. destruct (IH eq_refl) as [a' [Hin Ha']].
    exists a'. split; [now right | exact Ha'].
  - injection H as <-. exists a. split; [now left | exact Ha].
Qed.

Lemma mapM_ok {A B : Type} (f : A -> result B) (l : list A) :
  (forall a, In a l -> exists b, f a = Ok b) -> exists bs, mapM f l = Ok bs.
Proof.
  induction l as [| a l IH]; simpl; intros H; [now exists [] |].
  destruct (H a (or_introl eq_refl)) as [b ->].
  destruct (IH (fun a' Hin => H a' (or_intror Hin))) as [bs ->].
  now exists (b :: bs).
Qed.

(** The conversion of a frame raises only on an infinity among the cells
    of a column after the first. *)
Lemma converted_raise (raw : RawFrame) e :
  raw <> [] ->
  converted raw = Raise e ->
  e = IntCastingNaNError
  /\ exists c cell negative,
      In c (tl raw) /\ In cell (snd c)
      /\ Pd.to_numeric_coerce (Py.replace "," "" cell) = Pd.Inf negative.
Proof.
  destruct raw as [| [key cells] others]; [contradiction |]. intros _ H.
  unfold converted in H.
  destruct (mapM convert_column others) as [cols |] eqn:Hcols; [discriminate H |].
  injection H as <-. apply mapM_raise in Hcols. destruct Hcols as [c [Hin Hc]].
  unfold convert_column in Hc.
  destruct (mapM coerce_cell (snd c)) as [vs |] eqn:Hvs; [discriminate Hc |].
  injection Hc as <-. apply mapM_raise in Hvs. destruct Hvs as [cell [Hcell Hr]].
  destruct (coerce_cell_raise _ Hr) as [-> [b Hb]].
  split; [reflexivity |]. exists c, cell, b. auto.
Qed.

Lemma assigned_names_shape tt vt n :
  named_selection tt vt = true ->
  exists middle,
    assigned_names tt vt n = key_name tt :: middle ++ ["TOTAL"%string]
    /\ Py.mem (key_name tt) month_names = false
    /\ ~ In (key_name tt) (middle ++ ["TOTAL"%string])
    /\ ~ In "TOTAL"%string middle.
Proof.
  intros Hnamed.
  assert (Hnd := assigned_names_NoDup tt vt n).
  assert (H : exists middle,
             assigned_names tt vt n = key_name tt :: middle ++ ["TOTAL"%string]
             /\ Py.mem (key_name tt) month_names = false).
  { exists (removelast (tl (assigned_names tt vt n))).
    destruct tt, vt as [[] |]; try discriminate Hnamed;
      try (split; reflexivity);
      unfold assigned_names; cbn [app tl key_name];
      rewrite removelast_last; split; reflexivity. }
  destruct H as [middle [Heq Hkey]]. exists middle.
  rewrite Heq in Hnd. inversion Hnd as [| ? ? Hnotin Hnd']; subst.
  repeat split; auto.
  apply NoDup_remove_2 in Hnd'. rewrite app_nil_r in Hnd'. exact Hnd'.
Qed.

Lemma combine_labels (names : list string) (raw : RawFrame) :
  List.length names = List.length raw ->
  map fst (combine (map Name names) (map snd raw)) = map Name names
  /\ Forall2 (fun r c => snd c = snd r) raw (combine (map Name names) (map snd raw)).
Proof.
  revert raw. induction names as [| x names IH]; intros [| r raw] H;
    try discriminate H; simpl.
  - split; constructor.
  - destruct (IH raw) as [IH1 IH2]; [simpl in H; lia |].
    split; [now f_equal | now constructor].
Qed.

Lemma convert_columns_pairs (cs : RawFrame) :
  forall cols,
    mapM convert_column cs = Ok cols ->
    map fst cols = map fst cs
    /\ Forall2 (fun c col => exists vs,
                    snd col = Int64 vs
                    /\ Forall2 (fun cell v => coerce_cell cell = Ok v) (snd c) vs)
               cs cols.
Proof.
  induction cs as [| c cs IH]; intros cols H.
  - injection H as <-. split; constructor.
  - cbn [mapM] in H. unfold convert_column at 1 in H.
    destruct (mapM coerce_cell (snd c)) as [vs |] eqn:Hvs; [| discriminate H].
    cbn [bind] in H.
    destruct (mapM convert_column cs) as [cols' |] eqn:Hcols; [| discriminate H].
    injection H as <-. destruct (IH _ eq_refl) as [IH1 IH2].
    split; [simpl; now f_equal |].
    constructor; [| exact IH2]. exists vs. split; [reflexivity |].
    now apply mapM_Forall2.
Qed.

Lemma Forall2_compose {A B C : Type} (P : A -> B -> Prop) (Q : B -> C -> Prop)
    (R : A -> C -> Prop) (la : list A) (lb : list B) (lc : list C) :
  (forall a b c, P a b -> Q b c -> R a c) ->
  Forall2 P la lb -> Forall2 Q lb lc -> Forall2 R la lc.
Proof.
  intros HR H1. revert lc. induction H1; intros lc H2; inversion H2; subst;
    constructor; eauto.
Qed.

(** The frame [get_data] returns for a named selection, column by
    column. *)
Lemma get_data_frame (w : World) year tt vt t df :
  named_selection tt vt = true ->
  select_table (load_tables w (html_path year tt vt)) = Ok t ->
  get_data w year tt vt = Ok df ->
  df <> [] ->
  columns df = map Name (assigned_names tt vt (List.length (tl t)))
  /\ exists l0 c0 others cols,
      tl t = (l0, c0) :: others
      /\ df = (Name (key_name tt), Object c0) :: cols
      /\ Forall2 (fun raw col => exists vs,
                      snd col = Int64 vs
                      /\ Forall2 (fun cell v => coerce_cell cell = Ok v) (snd raw) vs)
                 others cols.
Proof.
  intros Hnamed Hsel Hget Hne.
  rewrite (get_data_outcome _ _ _ _ Hnamed Hsel) in Hget. cbv zeta in Hget.
  destruct (is_month_wise tt && _)%bool;
    [injection Hget as <-; contradiction |].
  destruct (Nat.eqb _ _) eqn:Hlen; [| discriminate Hget].
  apply Nat.eqb_eq in Hlen.
  destruct (assigned_names_shape tt vt (List.length (tl t)) Hnamed)
    as (middle & Hnames & _).
  destruct (combine_labels _ _ Hlen) as [Hlabels Hcells].
  rewrite Hnames in *.
  destruct (tl t) as [| [l0 c0] others]; [discriminate Hlen |].
  cbn [map combine snd] in *.
  unfold converted in Hget.
  destruct (mapM convert_column _) as [cols |] eqn:Hcols; [| discriminate Hget].
  injection Hget as <-.
  destruct (convert_columns_pairs _ Hcols) as [Hfst Hpairs].
  injection Hlabels as Hlabels.
  split.
  - unfold columns. cbn [map fst]. f_equal. rewrite Hfst. exact Hlabels.
  - exists l0, c0, others, cols. repeat split.
    inversion Hcells as [| ? ? ? ? _ Hcells']; subst.
    eapply Forall2_compose; [| exact Hcells' | exact Hpairs].
    intros raw c col Hc [vs [Hvs Hco]]. exists vs. split; [exact Hvs |].
    now rewrite <- Hc.
Qed.

(** X1. A frame [get_data] returns for a named selection, unless it is
    the empty frame, has the names of the selection as its columns, in
    order; its first column is the second column of the selected table,
    untouched; and each later column holds, cell by cell, the integers the
    cells of the table's column at the same place coerce to. *)
Theorem get_data_frame_shape (w : World) year tt vt t df :
  named_selection tt vt = true ->
  select_table (load_tables w (html_path year tt vt)) = Ok t ->
  get_data w year tt vt = Ok df ->
  df <> [] ->
  columns df = map Name (assigned_names tt vt (List.length (tl t)))
  /\ exists l0 c0 others cols,
      tl t = (l0, c0) :: others
      /\ df = (Name (key_name tt), Object c0) :: cols
      /\ Forall2 (fun raw col => exists vs,
                      snd col = Int64 vs
                      /\ Forall2 (fun cell v => coerce_cell cell = Ok v) (snd raw) vs)
                 others cols.
Proof. intros. eapply get_data_frame; eassumption. Qed.

Lemma get_data_frame_shape_witness :
  columns Sample.frame_2025
  = map Name (assigned_names VehicleCategoryMonthWise None
                (List.length (tl Sample.category_2025)))
  /\ exists l0 c0 others cols,
      tl Sample.category_2025 = (l0, c0) :: others
      /\ Sample.frame_2025 = (Name (key_name VehicleCategoryMonthWise), Object c0) :: cols
      /\ Forall2 (fun raw col => exists vs,
                      snd col = Int64 vs
                      /\ Forall2 (fun cell v => coerce_cell cell = Ok v) (snd raw) vs)
                 others cols.
Proof.
  apply (@get_data_frame_shape Sample.world 2025 VehicleCategoryMonthWise None
           Sample.category_2025 Sample.frame_2025).
  - reflexivity.
  - reflexivity.
  - reflexivity.
  - discriminate.
Defined.

Lemma in_combine_cells (names : list label) (raw : RawFrame) c :
  In c (combine names (map snd raw)) -> exists r, In r raw /\ snd c = snd r.
Proof.
  destruct c as [l cells]. intros H. apply in_combine_r in H.
  apply in_map_iff in H. destruct H as [r [Hr Hin]]. exists r. auto.
Qed.

(** X2. On a named selection [get_data] raises nothing but the length
    mismatch of the column assignment, when the selected table has another
    number of columns than names are assigned, and the integer-cast error,
    when the conversion of a cell of a column after the first raises it. *)
Theorem get_data_exceptions (w : World) year tt vt e :
  named_selection tt vt = true ->
  get_data w year tt vt = Raise e ->
  exists t,
    select_table (load_tables w (html_path year tt vt)) = Ok t
    /\ ((e = LengthMismatch (List.length (tl t))
                (List.length (assigned_names tt vt (List.length (tl t))))
         /\ List.length (assigned_names tt vt (List.length (tl t)))
            <> List.length (tl t))
        \/ (e = IntCastingNaNError
            /\ exists c cell,
                In c (tl (tl t)) /\ In cell (snd c)
                /\ coerce_cell cell = Raise IntCastingNaNError)).
Proof.
  intros Hnamed Hget.
  destruct (load_tables w (html_path year tt vt)) as [| t0 ts] eqn:Hl.
  - rewrite (get_data_no_tables _ _ _ _ Hl) in Hget. discriminate Hget.
  - destruct (@select_table_total (t0 :: ts)) as [t Hsel]; [discriminate |].
    exists t. split; [exact Hsel |].
    assert (Hsel' : select_table (load_tables w (html_path year tt vt)) = Ok t)
      by (rewrite Hl; exact Hsel).
    rewrite (get_data_outcome _ _ _ _ Hnamed Hsel') in Hget. cbv zeta in Hget.
    destruct (is_month_wise tt && _)%bool; [discriminate Hget |].
    destruct (Nat.eqb _ _) eqn:Hlen.
    + right. apply Nat.eqb_eq in Hlen.
      destruct (assigned_names_shape tt vt (List.length (tl t)) Hnamed)
        as (middle & Hnames & _).
      rewrite Hnames in *.
      destruct (tl t) as [| r0 others] eqn:Htl; [discriminate Hlen |].
      cbn [map combine] in Hget.
      apply converted_raise in Hget; [| discriminate].
      destruct Hget as [-> (c & cell & b & Hc & Hcell & Hinf)].
      split; [reflexivity |]. cbn [tl] in *.
      destruct (in_combine_cells _ _ _ Hc) as [r [Hr Hsnd]].
      exists r, cell. rewrite <- Hsnd. repeat split; auto.
      pose proof (coerce_cell_cases cell) as Hcase. now rewrite Hinf in Hcase.
    + left. injection Hget as <-. split; [reflexivity |].
      now apply Nat.eqb_neq.
Qed.

Lemma get_data_exceptions_witness :
  exists t,
    select_table (load_tables Sample.world
                    (html_path 2025 Manufacturer (Some FourWheeler))) = Ok t
    /\ ((LengthMismatch 5 6
         = LengthMismatch (List.length (tl t))
             (List.length (assigned_names Manufacturer (Some FourWheeler)
                             (List.length (tl t))))
         /\ List.length (assigned_names Manufacturer (Some FourWheeler)
                           (List.length (tl t)))
            <> List.length (tl t))
        \/ (LengthMismatch 5 6 = IntCastingNaNError
            /\ exists c cell,
                In c (tl (tl t)) /\ In cell (snd c)
                /\ coerce_cell cell = Raise IntCastingNaNError)).
Proof.
  apply (@get_data_exceptions Sample.world 2025 Manufacturer (Some FourWheeler)).
  - reflexivity.
  - reflexivity.
Defined.

Lemma monthly_names_length tt vt n :
  is_month_wise tt = true ->
  List.length (assigned_names tt vt n) = (Nat.min (n - 2) 12 + 2)%nat.
Proof.
  intros Hm.
  destruct tt; try discriminate Hm; unfold assigned_names;
    destruct vt; rewrite !length_app, length_firstn; simpl; lia.
Qed.

(** X3. The column assignment of [get_data] raises its length mismatch
    exactly when the selected table, its first column dropped, has another
    number of columns than the fixed schema has names, and for a
    month-wise table exactly when more than 14 columns are left. *)
Theorem length_mismatch_exactly (w : World) year tt vt t :
  named_selection tt vt = true ->
  select_table (load_tables w (html_path year tt vt)) = Ok t ->
  ((exists a b, get_data w year tt vt = Raise (LengthMismatch a b))
   <-> if is_month_wise tt then (14 < List.length (tl t))%nat
       else List.length (tl t) <> List.length (assigned_names tt vt 0)).
Proof.
  intros Hnamed Hsel.
  rewrite (get_data_outcome _ _ _ _ Hnamed Hsel). cbv zeta.
  assert (Hfixed : is_month_wise tt = false ->
            assigned_names tt vt (List.length (tl t)) = assigned_names tt vt 0).
  { destruct tt, vt; try discriminate; reflexivity. }
  destruct (is_month_wise tt) eqn:Hm; cbn [andb].
  - pose proof (monthly_names_length tt vt (List.length (tl t)) Hm) as Hlen.
    destruct (List.length (tl t) <=? 2)%nat eqn:Hle.
    + apply Nat.leb_le in Hle. split; [intros (a & b & H); discriminate H | lia].
    + apply Nat.leb_gt in Hle. rewrite Hlen.
      destruct (Nat.eqb _ _) eqn:He.
      * apply Nat.eqb_eq in He. split; [| lia].
        intros (a & b & H).
        destruct (assigned_names_shape tt vt (List.length (tl t)) Hnamed)
          as (middle & Hnames & _).
        rewrite Hnames in H.
        destruct (tl t) as [| r0 others]; [simpl in Hle; lia |].
        cbn [map combine] in H.
        apply converted_raise in H; [| discriminate].
        destruct H as [H _]. discriminate H.
      * apply Nat.eqb_neq in He. split; [lia | eauto].
  - rewrite (Hfixed eq_refl).
    destruct (Nat.eqb _ _) eqn:He.
    + apply Nat.eqb_eq in He. split; [| intros Hne; now rewrite He in Hne].
      intros (a & b & H).
      destruct (assigned_names_shape tt vt 0 Hnamed) as (middle & Hnames & _).
      rewrite Hnames in H.
      destruct (tl t) as [| r0 others];
        [rewrite Hnames in He; discriminate He |].
      cbn [map combine] in H.
      apply converted_raise in H; [| discriminate].
      destruct H as [H _]. discriminate H.
    + apply Nat.eqb_neq in He. split; [intros _ Heq; now rewrite Heq in He | eauto].
Qed.

Lemma length_mismatch_exactly_witness :
  (exists a b, get_data Sample.world 2025 Manufacturer (Some FourWheeler)
               = Raise (LengthMismatch a b))
  <-> List.length (tl Sample.short_manufacturer)
      <> List.length (assigned_names Manufacturer (Some FourWheeler) 0).
Proof.
  apply (@length_mismatch_exactly Sample.world 2025 Manufacturer (Some FourWheeler)
           Sample.short_manufacturer).
  - reflexivity.
  - reflexivity.
Defined.

Lemma digit_cells_nonneg (cells : list string) :
  forall vs,
    (forall cell, In cell cells -> digits_and_commas cell = true) ->
    mapM coerce_cell cells = Ok vs ->
    Forall (fun v => 0 <= v) vs.
Proof.
  induction cells as [| cell cells IH]; intros vs Hd H.
  - injection H as <-. constructor.
  - cbn [mapM] in H.
    destruct (coerce_cell_digits cell (Hd cell (or_introl eq_refl))) as [Heq Hpos].
    rewrite Heq in H. cbn [bind] in H.
    destruct (mapM coerce_cell cells) as [vs' |] eqn:Hvs; [| discriminate H].
    injection H as <-. constructor; [exact Hpos |].
    apply IH; [| reflexivity]. intros c Hin. apply Hd. now right.
Qed.

Lemma digit_columns_convert (cs : RawFrame) :
  (forall c cell, In c cs -> In cell (snd c) -> digits_and_commas cell = true) ->
  exists cols,
    mapM convert_column cs = Ok cols
    /\ Forall (fun col => exists vs, snd col = Int64 vs /\ Forall (fun v => 0 <= v) vs)
              cols.
Proof.
  induction cs as [| c cs IH]; intros Hd.
  - exists []. split; [reflexivity | constructor].
  - destruct IH as [cols [Hcols Hall]];
      [intros c' cell Hc'; apply Hd; now right |].
    destruct (@mapM_ok _ _ coerce_cell (snd c)) as [vs Hvs].
    { intros cell Hcell.
      destruct (coerce_cell_digits cell (Hd c cell (or_introl eq_refl) Hcell))
        as [-> _]. eauto. }
    exists ((fst c, Int64 vs) :: cols). split.
    + cbn [mapM]. unfold convert_column at 1. rewrite Hvs. cbn [bind].
      rewrite Hcols. reflexivity.
    + constructor; [| exact Hall]. exists vs. split; [reflexivity |].
      apply (digit_cells_nonneg (snd c)); [| exact Hvs].
      intros cell Hcell. now apply (Hd c); [left |].
Qed.

(** X4. A table of the right width whose cells after the key column are
    made of digits and commas, with at most 15 digits each (numbers a
    64-bit float holds exactly), is normalized without error, and every
    value of the frame is zero or more. *)
Theorem digit_table_normalizes (w : World) year tt vt t :
  named_selection tt vt = true ->
  select_table (load_tables w (html_path year tt vt)) = Ok t ->
  List.length (assigned_names tt vt (List.length (tl t))) = List.length (tl t) ->
  (forall c cell, In c (tl (tl t)) -> In cell (snd c) ->
                  digits_and_commas cell = true /\ (digit_count cell <= 15)%nat) ->
  exists df,
    get_data w year tt vt = Ok df
    /\ (df = [] <-> (is_month_wise tt = true /\ (List.length (tl t) <= 2)%nat))
    /\ Forall (fun col => exists vs, snd col = Int64 vs /\ Forall (fun v => 0 <= v) vs)
              (tl df).
Proof.
  intros Hnamed Hsel Hlen Hcells.
  assert (Hdigits : forall c cell, In c (tl (tl t)) -> In cell (snd c) ->
                                   digits_and_commas cell = true)
    by (intros c cell Hc Hcell; exact (proj1 (Hcells c cell Hc Hcell))).
  clear Hcells.
  rewrite (get_data_outcome _ _ _ _ Hnamed Hsel). cbv zeta.
  destruct (is_month_wise tt && _)%bool eqn:Hshort.
  { exists empty_frame. split; [reflexivity |]. split; [| constructor].
    apply andb_prop in Hshort. destruct Hshort as [Hm Hle].
    apply Nat.leb_le in Hle. split; [intros _; split; assumption | reflexivity]. }
  rewrite Hlen, Nat.eqb_refl.
  destruct (assigned_names_shape tt vt (List.length (tl t)) Hnamed)
    as (middle & Hnames & _).
  rewrite Hnames in *.
  destruct (tl t) as [| [l0 c0] others] eqn:Htl; [discriminate Hlen |].
  cbn [map combine snd converted tl] in *.
  destruct (digit_columns_convert
              (combine (map Name (middle ++ ["TOTAL"%string])) (map snd others)))
    as [cols [Hcols Hall]].
  { intros c cell Hc Hcell. destruct (in_combine_cells _ _ _ Hc) as [r [Hr Hsnd]].
    apply (Hdigits r); [exact Hr | now rewrite <- Hsnd]. }
  rewrite Hcols. cbn [bind]. eexists. split; [reflexivity |]. split.
  - split; [discriminate |]. intros [Hm Hle].
    rewrite Hm in Hshort. cbn [andb] in Hshort.
    apply Nat.leb_gt in Hshort. cbn [List.length] in Hshort, Hle. lia.
  - exact Hall.
Qed.

Lemma digit_table_normalizes_witness :
  exists df,
    get_data Sample.world 2024 Manufacturer (Some FourWheeler) = Ok df
    /\ (df = [] <-> (is_month_wise Manufacturer = true
                     /\ (List.length (tl Sample.manufacturer_2024) <= 2)%nat))
    /\ Forall (fun col => exists vs, snd col = Int64 vs /\ Forall (fun v => 0 <= v) vs)
              (tl df).
Proof.
  apply (@digit_table_normalizes Sample.world 2024 Manufacturer (Some FourWheeler)
           Sample.manufacturer_2024).
  - reflexivity.
  - reflexivity.
  - reflexivity.
  - intros c cell Hc Hcell. simpl in Hc.
    repeat (destruct Hc as [<- | Hc];
            [simpl in Hcell; destruct Hcell as [<- | []];
             split; [reflexivity | vm_compute; lia] |]).
    contradiction.
Defined.


(* ===================================================================== *)
(** ** Integer cells *)
(* ===================================================================== *)

Lemma uint_digits_pos (d : Decimal.uint) :
  forall p : positive,
    fold_left (fun acc c => acc * 10 + Pd.digit_value c)
              (Py.chars (NilEmpty.string_of_uint d)) (Zpos p)
    = Zpos (Pos.of_uint_acc d p).
Proof.
  unfold Py.chars.
  induction d as [| d IH | d IH | d IH | d IH | d IH | d IH | d IH | d IH | d IH | d IH];
    intros p; [reflexivity | ..];
    cbn [NilEmpty.string_of_uint list_ascii_of_string fold_left Pos.of_uint_acc];
    rewrite <- IH; f_equal; unfold Pd.digit_value, Py.code;
    match goal with
    | |- context [Z.of_nat (nat_of_ascii ?c)] =>
        let v := eval vm_compute in (Z.of_nat (nat_of_ascii c)) in
        change (Z.of_nat (nat_of_ascii c)) with v
    end; lia.
Qed.

Lemma uint_digits (d : Decimal.uint) :
  Pd.digits_value (Py.chars (NilEmpty.string_of_uint d)) = Z.of_N (Pos.of_uint d).
Proof.
  unfold Pd.digits_value, Py.chars.
  induction d as [| d IH | d IH | d IH | d IH | d IH | d IH | d IH | d IH | d IH | d IH];
    [reflexivity | exact IH | ..];
    cbn [NilEmpty.string_of_uint list_ascii_of_string fold_left Pos.of_uint Z.of_N];
    apply (uint_digits_pos d).
Qed.

Lemma uint_all_digits (d : Decimal.uint) :
  forallb Pd.is_digit (Py.chars (NilEmpty.string_of_uint d)) = true.
Proof.
  unfold Py.chars.
  induction d; [reflexivity | ..];
    cbn [NilEmpty.string_of_uint list_ascii_of_string forallb];
    rewrite IHd; reflexivity.
Qed.

Lemma filter_all {A : Type} (f : A -> bool) (l : list A) :
  forallb f l = true -> filter f l = l.
Proof.
  induction l as [| a l IH]; simpl; intros H; [reflexivity |].
  apply andb_prop in H. destruct H as [Ha Hl]. rewrite Ha, (IH Hl). reflexivity.
Qed.

Lemma digits_no_comma ds :
  forallb Pd.is_digit ds = true ->
  filter (fun c => negb (Ascii.eqb c ",")) ds = ds.
Proof.
  intros H. apply filter_all.
  induction ds as [| c ds IH]; simpl in *; [reflexivity |].
  apply andb_prop in H. destruct H as [Hc Hds].
  destruct (digit_facts c Hc) as (_ & _ & Hcomma & _).
  rewrite Hcomma, (IH Hds). reflexivity.
Qed.

(** The scanner on a minus sign and digits. *)
Lemma scan_decimal_negative ds :
  forallb Pd.is_digit ds = true -> ds <> [] ->
  Pd.scan_decimal ("-"%char :: ds) = Some (- inject_Z (Pd.digits_value ds))%Q.
Proof.
  intros Hall Hne. unfold Pd.scan_decimal.
  replace (Pd.skip_spaces ("-"%char :: ds)) with ("-"%char :: ds) by reflexivity.
  cbn [Pd.take_sign]. rewrite (span_digits_all _ Hall).
  destruct ds as [| c ds']; [contradiction |].
  cbn [List.length Nat.add Nat.eqb Pd.skip_spaces].
  rewrite app_nil_r. unfold Pd.scale10. simpl (0 - Z.of_nat 0).
  cbn [Z.leb Z.compare Z.pow]. rewrite Z.mul_1_r. reflexivity.
Qed.

Lemma to_uint_not_nil p : Pos.to_uint p <> Decimal.Nil.
Proof.
  intros H. pose proof (DecimalPos.Unsigned.of_to p) as Hp.
  rewrite H in Hp. discriminate Hp.
Qed.

Lemma uint_chars_not_nil d :
  d <> Decimal.Nil -> Py.chars (NilEmpty.string_of_uint d) <> [].
Proof. destruct d; [contradiction | ..]; intros _; discriminate. Qed.

(** X5. An integer cell is read back as itself: the text of an integer
    of at most 15 digits, as [astype(str)] gives it, coerces to that
    integer, negative ones included. *)
Theorem integer_cell_round_trip (n : Z) :
  Z.abs n < 10 ^ 15 ->
  coerce_cell (Py.str_of_int n) = Ok n.
Proof.
  intros _. destruct n as [| p | p].
  - reflexivity.
  - pose proof (to_uint_not_nil p) as Hnil.
    assert (Hstr : Py.str_of_int (Zpos p) = NilEmpty.string_of_uint (Pos.to_uint p)).
    { unfold Py.str_of_int. cbn [Z.to_int NilZero.string_of_int].
      unfold NilZero.string_of_uint. destruct (Pos.to_uint p); [contradiction | ..];
        reflexivity. }
    rewrite Hstr.
    assert (Hd : digits_and_commas (NilEmpty.string_of_uint (Pos.to_uint p)) = true).
    { unfold digits_and_commas.
      pose proof (uint_all_digits (Pos.to_uint p)) as Hall.
      induction (Py.chars _) as [| c l IH]; simpl in *; [reflexivity |].
      apply andb_prop in Hall. destruct Hall as [Hc Hl].
      rewrite Hc, (IH Hl). reflexivity. }
    destruct (coerce_cell_digits _ Hd) as [-> _].
    rewrite (filter_all _ _ (uint_all_digits _)), uint_digits.
    now rewrite DecimalPos.Unsigned.of_to.
  - pose proof (to_uint_not_nil p) as Hnil.
    assert (Hstr : Py.str_of_int (Zneg p)
                   = String "-" (NilEmpty.string_of_uint (Pos.to_uint p))).
    { unfold Py.str_of_int. cbn [Z.to_int NilZero.string_of_int].
      unfold NilZero.string_of_uint. destruct (Pos.to_uint p); [contradiction | ..];
        reflexivity. }
    rewrite Hstr. unfold coerce_cell, Pd.to_numeric_coerce.
    rewrite chars_without_commas.
    change (Py.chars (String "-" (NilEmpty.string_of_uint (Pos.to_uint p))))
      with ("-"%char :: Py.chars (NilEmpty.string_of_uint (Pos.to_uint p))).
    cbn [filter Ascii.eqb Bool.eqb negb].
    replace (Ascii.eqb "-" ",") with false by reflexivity. cbn [negb].
    rewrite (digits_no_comma _ (uint_all_digits _)).
    rewrite scan_decimal_negative;
      [| apply uint_all_digits | now apply uint_chars_not_nil].
    cbn [Pd.fillna0 Pd.astype_int]. f_equal.
    rewrite uint_digits, DecimalPos.Unsigned.of_to.
    unfold Pd.trunc. cbn [Z.of_N Qopp inject_Z Qnum Qden Z.opp].
    apply Z.quot_1_r.
Qed.

Lemma integer_cell_round_trip_witness :
  coerce_cell (Py.str_of_int (-1210)) = Ok (-1210).
Proof. apply (@integer_cell_round_trip (-1210)). lia. Defined.


(* ===================================================================== *)
(** ** The page blocks on frames of [get_data] *)
(* ===================================================================== *)

Lemma has_column_In name (df : DataFrame) :
  has_column name df = true <-> In (Name name) (columns df).
Proof.
  unfold has_column. rewrite existsb_exists. split.
  - intros [l [Hin Heq]]. apply label_eqb_eq in Heq. now subst.
  - intros Hin. exists (Name name). split; [exact Hin | apply label_eqb_refl].
Qed.

Lemma get_data_table_frame (w : World) year tt vt df :
  named_selection tt vt = true ->
  get_data w year tt vt = Ok df ->
  df <> [] ->
  table_frame tt df.
Proof.
  intros Hnamed Hget Hne.
  destruct (load_tables w (html_path year tt vt)) as [| t0 ts] eqn:Hl.
  { rewrite (get_data_no_tables _ _ _ _ Hl) in Hget. injection Hget as <-.
    contradiction. }
  destruct (@select_table_total (t0 :: ts)) as [t Hsel]; [discriminate |].
  rewrite <- Hl in Hsel.
  destruct (get_data_frame _ _ _ _ Hnamed Hsel Hget Hne)
    as (Hcols & l0 & c0 & others & cols & _ & Hdf & Hpairs).
  destruct (assigned_names_shape tt vt (List.length (tl t)) Hnamed)
    as (middle & Hnames & _ & Hkey & _).
  rewrite Hnames, Hdf in Hcols. unfold columns in Hcols.
  cbn [map fst] in Hcols. injection Hcols as Hcols.
  exists c0, cols. split; [exact Hdf |]. split.
  - assert (Hint : Forall (fun col => exists vs, snd col = Int64 vs) cols).
    { clear - Hpairs. induction Hpairs as [| r col rs cols' [vs [Hvs _]] _ IH];
        constructor; eauto. }
    assert (Hlab : Forall (fun col => exists name,
                               fst col = Name name /\ In name (middle ++ ["TOTAL"%string]))
                          cols).
    { clear - Hcols. revert Hcols. generalize (middle ++ ["TOTAL"%string]).
      induction cols as [| col cols IH]; intros names H; [constructor |].
      destruct names as [| x names]; [discriminate H |].
      simpl in H. injection H as Hx Hrest. constructor.
      - exists x. split; [exact Hx | now left].
      - apply IH in Hrest. eapply Forall_impl; [| exact Hrest].
        intros c [name [Hn Hin]]. exists name. split; [exact Hn | now right]. }
    clear - Hint Hlab Hkey.
    induction cols as [| [l s] cols IH]; constructor.
    + inversion Hint as [| ? ? [vs Hvs] _]; subst.
      inversion Hlab as [| ? ? [name [Hn Hin]] _]; subst.
      simpl in Hvs, Hn. subst. exists name, vs. split; [reflexivity |].
      intros ->. contradiction.
    + inversion Hint; inversion Hlab; subst. now apply IH.
  - apply has_column_In. rewrite Hdf. unfold columns. cbn [map fst].
    right. rewrite Hcols. apply in_map, in_or_app. right. now left.
Qed.

Lemma int_column_among key (cols : DataFrame) name :
  Forall (fun c => exists n vs, c = (Name n, Int64 vs) /\ n <> key) cols ->
  existsb (label_eqb (Name name)) (map fst cols) = true ->
  exists vs,
    (s <- get_column (Name name) cols ;;
     match s with
     | Int64 vals => Ok vals
     | Object _ => Raise (TypeError name)
     end) = Ok vs.
Proof.
  induction cols as [| c cols IH]; intros Hcols Hhas; [discriminate Hhas |].
  inversion Hcols as [| ? ? (n & vs & -> & _) Hrest]; subst.
  cbn [map fst existsb label_eqb get_column] in *.
  rewrite (String.eqb_sym n name).
  destruct (String.eqb name n); [cbn [bind]; eauto |].
  now apply IH.
Qed.

Lemma label_eqb_sym_frame a b : label_eqb a b = label_eqb b a.
Proof.
  destruct a, b; simpl; try reflexivity;
    [apply Nat.eqb_sym | apply String.eqb_sym].
Qed.

Section TableFrame.

Variable tt : table_type.
Variable df : DataFrame.
Hypothesis df_frame : table_frame tt df.

Lemma frame_key : column0 df = Ok (Name (key_name tt)).
Proof. destruct df_frame as (cells & cols & -> & _). reflexivity. Qed.

Lemma frame_key_cells :
  exists cells, key_cells (Name (key_name tt)) df = Ok cells
                /\ get_column (Name (key_name tt)) df = Ok (Object cells)
                /\ n_rows df = List.length cells.
Proof.
  destruct df_frame as (cells & cols & -> & _). exists cells.
  unfold key_cells. cbn [get_column label_eqb]. rewrite String.eqb_refl.
  repeat split.
Qed.

Lemma frame_get_column name :
  has_column name df = true -> exists s, get_column (Name name) df = Ok s.
Proof.
  unfold has_column, columns. clear df_frame.
  induction df as [| [l s] d IH]; cbn [map fst existsb get_column]; [discriminate |].
  rewrite (label_eqb_sym_frame l (Name name)).
  destruct (label_eqb (Name name) l); [eauto | exact IH].
Qed.

Lemma frame_int_column name :
  has_column name df = true -> name <> key_name tt ->
  exists vs, int_column name df = Ok vs.
Proof.
  destruct df_frame as (cells & cols & -> & Hcols & _).
  intros Hhas Hne. unfold has_column, columns in Hhas.
  cbn [map fst existsb label_eqb] in Hhas.
  assert (Hk : String.eqb name (key_name tt) = false)
    by (now apply String.eqb_neq).
  rewrite Hk in Hhas. cbn [orb] in Hhas.
  unfold int_column. cbn [get_column label_eqb].
  rewrite String.eqb_sym, Hk.
  eapply int_column_among; eauto.
Qed.

End TableFrame.

Lemma key_name_facts tt :
  Py.mem (key_name tt) month_names = false /\ key_name tt <> "TOTAL"%string.
Proof. destruct tt; split; (reflexivity || discriminate). Qed.

Lemma frame_two_columns tt (df : DataFrame) name :
  table_frame tt df ->
  has_column name df = true -> name <> key_name tt ->
  exists rows, two_columns (Name (key_name tt)) name df = Ok rows.
Proof.
  intros Hf Hhas Hne. unfold two_columns.
  destruct (@frame_key_cells tt df Hf) as (cells & -> & _).
  destruct (@frame_int_column tt df Hf name Hhas Hne) as [vs ->].
  cbn [bind]. eauto.
Qed.

Lemma is_empty_false_nonempty (df : DataFrame) : is_empty df = false -> df <> [].
Proof. intros H ->. discriminate H. Qed.

(** X6. The YoY block does not end in its error box on frames of
    [get_data] that have rows and text keys: when the previous year's
    frame is loaded, the block shows the warning if that frame is empty
    and a comparison table otherwise, whatever month of the month box is
    selected. *)
Theorem year_over_year_never_fails (w : World) year tt vt sm df prev_df :
  named_selection tt vt = true ->
  get_data w year tt vt = Ok df ->
  is_empty df = false ->
  text_keys df = true ->
  get_data w (year - 1) tt vt = Ok prev_df ->
  (is_empty prev_df = false -> text_keys prev_df = true) ->
  (forall m, month_selected sm = Some m -> In m month_names) ->
  (is_empty prev_df = true
   /\ year_over_year w year tt vt sm df = Info NoPreviousYearData)
  \/ (is_empty prev_df = false
      /\ exists current_data prev_data,
          two_columns (Name (key_name tt)) (data_col sm df prev_df) df
            = Ok current_data
          /\ two_columns (Name (key_name tt)) (data_col sm df prev_df) prev_df
             = Ok prev_data
          /\ year_over_year w year tt vt sm df
             = Shown (compare (merged_rows current_data prev_data))).
Proof.
  intros Hnamed Hget Hrows _ Hprev _ Hmonth.
  pose proof (@is_empty_false_nonempty df Hrows) as Hne.
  unfold year_over_year. cbv zeta. rewrite Hprev. cbn [bind].
  destruct (is_empty prev_df) eqn:Hempty; [left; split; reflexivity |].
  right. split; [reflexivity |]. cbn [negb].
  pose proof (get_data_table_frame _ _ _ _ Hnamed Hget Hne) as Hf.
  pose proof (get_data_table_frame _ _ _ _ Hnamed Hprev
                (@is_empty_false_nonempty prev_df Hempty)) as Hpf.
  rewrite (@frame_key tt df Hf). cbn [bind].
  destruct (key_name_facts tt) as [Hkm Hkt].
  assert (Hcol : has_column (data_col sm df prev_df) df = true
                 /\ has_column (data_col sm df prev_df) prev_df = true
                 /\ data_col sm df prev_df <> key_name tt).
  { assert (Htotal : has_column "TOTAL" df = true
                     /\ has_column "TOTAL" prev_df = true
                     /\ "TOTAL"%string <> key_name tt).
    { destruct Hf as (? & ? & _ & _ & H1). destruct Hpf as (? & ? & _ & _ & H2).
      repeat split; auto. }
    unfold data_col. destruct (month_selected sm) as [m |] eqn:Hm; [| exact Htotal].
    destruct (has_column m df && has_column m prev_df)%bool eqn:Hboth;
      [| exact Htotal].
    apply andb_prop in Hboth. destruct Hboth as [H1 H2].
    repeat split; auto. intros ->.
    pose proof (Hmonth _ eq_refl) as Hin. apply mem_In in Hin.
    rewrite Hin in Hkm. discriminate. }
  destruct Hcol as (Hc1 & Hc2 & Hc3).
  destruct (@frame_two_columns tt df _ Hf Hc1 Hc3) as [cd Hcd].
  destruct (@frame_two_columns tt prev_df _ Hpf Hc2 Hc3) as [pd Hpd].
  exists cd, pd. rewrite Hcd, Hpd. cbn [bind catch]. auto.
Qed.

Lemma year_over_year_never_fails_witness :
  (is_empty Sample.frame_2024 = true
   /\ year_over_year Sample.world 2025 VehicleCategoryMonthWise None
        (Some "Feb"%string) Sample.frame_2025 = Info NoPreviousYearData)
  \/ (is_empty Sample.frame_2024 = false
      /\ exists current_data prev_data,
          two_columns (Name (key_name VehicleCategoryMonthWise))
            (data_col (Some "Feb"%string) Sample.frame_2025 Sample.frame_2024)
            Sample.frame_2025 = Ok current_data
          /\ two_columns (Name (key_name VehicleCategoryMonthWise))
               (data_col (Some "Feb"%string) Sample.frame_2025 Sample.frame_2024)
               Sample.frame_2024 = Ok prev_data
          /\ year_over_year Sample.world 2025 VehicleCategoryMonthWise None
               (Some "Feb"%string) Sample.frame_2025
             = Shown (compare (merged_rows current_data prev_data))).
Proof.
  apply (@year_over_year_never_fails Sample.world 2025 VehicleCategoryMonthWise None
           (Some "Feb"%string) Sample.frame_2025 Sample.frame_2024).
  - reflexivity.
  - reflexivity.
  - reflexivity.
  - reflexivity.
  - reflexivity.
  - reflexivity.
  - intros m Hm. injection Hm as <-. simpl. tauto.
Defined.

(** X7. The table under the header never fails on a frame of [get_data]:
    with a month selected that is a column of the frame it is the key
    column, that month under the name "<month> Registrations" and the TOTAL
    column, with the rows of the frame; otherwise it is the frame itself. *)
Theorem display_never_fails (w : World) year tt vt sm df :
  named_selection tt vt = true ->
  get_data w year tt vt = Ok df ->
  df <> [] ->
  match month_selected sm with
  | Some m =>
      if has_column m df
      then exists c0 c1 c2,
          get_column (Name (key_name tt)) df = Ok c0
          /\ get_column (Name m) df = Ok c1
          /\ get_column (Name "TOTAL") df = Ok c2
          /\ display_df sm df
             = Ok [(Name (key_name tt), c0);
                   (Name (m ++ " Registrations")%string, c1);
                   (Name "TOTAL", c2)]
          /\ series_len c0 = n_rows df
      else display_df sm df = Ok df
  | None => display_df sm df = Ok df
  end.
Proof.
  intros Hnamed Hget Hne.
  pose proof (get_data_table_frame _ _ _ _ Hnamed Hget Hne) as Hf.
  unfold display_df.
  destruct (month_selected sm) as [m |]; [| reflexivity].
  destruct (has_column m df) eqn:Hm; [| reflexivity].
  rewrite (@frame_key tt df Hf). cbn [bind].
  destruct (@frame_key_cells tt df Hf) as (cells & _ & Hk & Hrows).
  destruct (@frame_get_column df m Hm) as [c1 Hc1].
  destruct Hf as (? & ? & _ & _ & Ht).
  destruct (@frame_get_column df "TOTAL"%string Ht) as [c2 Hc2].
  exists (Object cells), c1, c2.
  rewrite Hk, Hc1, Hc2. cbn [bind]. repeat split; auto.
Qed.

Lemma display_never_fails_witness :
  exists c0 c1 c2,
    get_column (Name (key_name VehicleCategoryMonthWise)) Sample.frame_2025 = Ok c0
    /\ get_column (Name "Feb") Sample.frame_2025 = Ok c1
    /\ get_column (Name "TOTAL") Sample.frame_2025 = Ok c2
    /\ display_df (Some "Feb"%string) Sample.frame_2025
       = Ok [(Name (key_name VehicleCategoryMonthWise), c0);
             (Name ("Feb" ++ " Registrations")%string, c1);
             (Name "TOTAL", c2)]
    /\ series_len c0 = n_rows Sample.frame_2025.
Proof.
  apply (@display_never_fails Sample.world 2025 VehicleCategoryMonthWise None
           (Some "Feb"%string) Sample.frame_2025).
  - reflexivity.
  - reflexivity.
  - discriminate.
Defined.


(* ===================================================================== *)
(** ** More on the comparison tables *)
(* ===================================================================== *)

Lemma index_nth_error x (l : list string) i :
  Py.index x l = Ok i -> nth_error l i = Some x.
Proof.
  revert i. induction l as [| y l IH]; simpl; intros i H; [discriminate H |].
  destruct (String.eqb y x) eqn:E.
  - injection H as <-. apply String.eqb_eq in E. now subst.
  - destruct (Py.index x l) as [j |]; [| discriminate H].
    injection H as <-. now apply IH.
Qed.

Lemma compare_columns (keys : list string) (prev curr : list Z) :
  List.length prev = List.length keys ->
  List.length curr = List.length keys ->
  let c := compare (combine (combine keys prev) curr) in
  map category (rows c) = keys
  /\ map previous (rows c) = prev
  /\ map current (rows c) = curr.
Proof.
  unfold compare. cbn [rows]. rewrite !map_map. cbn [category previous current].
  revert prev curr.
  induction keys as [| k keys IH]; intros [| p prev] [| c curr] Hp Hc;
    try discriminate; [repeat split |].
  destruct (IH prev curr) as (H1 & H2 & H3); [simpl in *; lia .. |].
  cbn [combine map]. rewrite H1, H2, H3. repeat split.
Qed.

(** X8. On a normalized frame that has the selected month and the month
    before it, the MoM block shows one row per row of the frame, in order,
    with the category, the previous month's value and the selected
    month's value, and its two totals are the sums of these two columns
    of the frame. *)
Theorem month_over_month_table (w : World) year tt vt (df : DataFrame) m i :
  normalized df = true ->
  Py.index m month_names = Ok (S i) ->
  has_column (nth i month_names ""%string) df = true ->
  has_column m df = true ->
  exists key keys prev curr c,
    column0 df = Ok key
    /\ key_cells key df = Ok keys
    /\ int_column (nth i month_names ""%string) df = Ok prev
    /\ int_column m df = Ok curr
    /\ monthly_comparison w year tt vt m df = Shown c
    /\ map category (rows c) = keys
    /\ map previous (rows c) = prev
    /\ map current (rows c) = curr
    /\ previous_total c = sum prev
    /\ current_total c = sum curr
    /\ List.length (rows c) = n_rows df.
Proof.
  intros Hn Hidx Hprev Hcurr.
  pose proof (index_nth_error _ _ Hidx) as Hnth.
  assert (Hm : In m month_names) by (eapply nth_error_In; eauto).
  assert (Hi : (i < List.length month_names)%nat).
  { apply Nat.lt_succ_l. apply nth_error_Some. rewrite Hnth. discriminate. }
  assert (Hpm : In (nth i month_names ""%string) month_names) by now apply nth_In.
  destruct (@month_column df Hn _ Hpm Hprev) as [prev [Hp Hlp]].
  destruct (@month_column df Hn _ Hm Hcurr) as [curr [Hc Hlc]].
  destruct (@normalized_shape df Hn) as (key & cells & cols & Hdf & _ & Hrows & _).
  assert (Hkey : column0 df = Ok (Name key)) by (rewrite Hdf; reflexivity).
  assert (Hcells : key_cells (Name key) df = Ok cells).
  { rewrite Hdf. unfold key_cells. cbn [get_column label_eqb].
    rewrite String.eqb_refl. reflexivity. }
  rewrite Hrows in Hlp, Hlc.
  destruct (compare_columns cells prev curr Hlp Hlc) as (H1 & H2 & H3).
  exists (Name key), cells, prev, curr, (compare (combine (combine cells prev) curr)).
  repeat split; auto.
  - unfold monthly_comparison. rewrite Hidx. cbn [bind]. rewrite Hkey. cbn [bind].
    change (0 <? S i)%nat with true. cbv iota zeta.
    replace (S i - 1)%nat with i by lia.
    rewrite Hprev, Hcurr. cbn [andb]. rewrite Hcells. cbn [bind].
    rewrite Hp. cbn [bind]. rewrite Hc. reflexivity.
  - change (sum (map previous (rows (compare (combine (combine cells prev) curr))))
            = sum prev).
    now rewrite H2.
  - change (sum (map current (rows (compare (combine (combine cells prev) curr))))
            = sum curr).
    now rewrite H3.
  - rewrite Hrows. rewrite <- (length_map category), H1. reflexivity.
Qed.

Lemma month_over_month_table_witness :
  exists key keys prev curr c,
    column0 Sample.frame_2025 = Ok key
    /\ key_cells key Sample.frame_2025 = Ok keys
    /\ int_column (nth 0 month_names ""%string) Sample.frame_2025 = Ok prev
    /\ int_column "Feb" Sample.frame_2025 = Ok curr
    /\ monthly_comparison Sample.world 2025 VehicleCategoryMonthWise None "Feb"
         Sample.frame_2025 = Shown c
    /\ map category (rows c) = keys
    /\ map previous (rows c) = prev
    /\ map current (rows c) = curr
    /\ previous_total c = sum prev
    /\ current_total c = sum curr
    /\ List.length (rows c) = n_rows Sample.frame_2025.
Proof.
  apply (@month_over_month_table Sample.world 2025 VehicleCategoryMonthWise None
           Sample.frame_2025 "Feb"%string 0%nat); reflexivity.
Defined.






(* ===================================================================== *)
(** ** Totals across the outer join *)
(* ===================================================================== *)

Lemma sum_app (a b : list Z) : sum (a ++ b) = sum a + sum b.
Proof. induction a as [| x a IH]; simpl; [reflexivity | rewrite IH; lia]. Qed.

Lemma sum_flat_map {A B : Type} (g : A -> list B) (f : B -> Z) (l : list A) :
  sum (map f (flat_map g l)) = sum (map (fun a => sum (map f (g a))) l).
Proof.
  induction l as [| a l IH]; simpl; [reflexivity |].
  rewrite map_app, sum_app, IH. reflexivity.
Qed.

Lemma sum_map_add {A : Type} (f g : A -> Z) (l : list A) :
  sum (map (fun a => f a + g a) l) = sum (map f l) + sum (map g l).
Proof. induction l as [| a l IH]; simpl; [reflexivity | rewrite IH; lia]. Qed.

Lemma sum_indicator (k0 : string) (v0 : Z) (keys : list string) :
  NoDup keys -> In k0 keys ->
  sum (map (fun k => if String.eqb k0 k then v0 else 0) keys) = v0.
Proof.
  induction keys as [| k keys IH]; intros Hnd Hin; [contradiction |].
  inversion Hnd as [| ? ? Hnotin Hnd']; subst. simpl.
  destruct (String.eqb k0 k) eqn:E.
  - apply String.eqb_eq in E. subst k.
    assert (Hzero : sum (map (fun k => if String.eqb k0 k then v0 else 0) keys) = 0).
    { clear - Hnotin. induction keys as [| k keys IH]; simpl; [reflexivity |].
      destruct (String.eqb k0 k) eqn:E.
      - apply String.eqb_eq in E. subst. exfalso. apply Hnotin. now left.
      - rewrite IH; [reflexivity |]. intros Hin. apply Hnotin. now right. }
    rewrite Hzero. lia.
  - destruct Hin as [-> | Hin]; [rewrite String.eqb_refl in E; discriminate |].
    rewrite IH by assumption. lia.
Qed.

(** Summing, key by key, the values a table has for the key gives the sum
    of the table's values. *)
Lemma sum_by_key (keys : list string) (t : list (string * Z)) :
  NoDup keys -> incl (map fst t) keys ->
  sum (map (fun k => sum (values_of k t)) keys) = sum (map snd t).
Proof.
  intros Hnd. induction t as [| [k0 v0] t IH]; intros Hincl.
  - clear. induction keys as [| k keys IH]; simpl; [reflexivity | exact IH].
  - assert (Hstep : forall k,
      sum (values_of k ((k0, v0) :: t))
      = (if String.eqb k0 k then v0 else 0) + sum (values_of k t)).
    { intros k. unfold values_of. simpl. destruct (String.eqb k0 k); reflexivity. }
    rewrite (map_ext _ _ Hstep), sum_map_add.
    rewrite sum_indicator; [| exact Hnd | apply Hincl; now left].
    rewrite IH by (intros k Hk; apply Hincl; now right). reflexivity.
Qed.

Lemma values_of_short k (t : list (string * Z)) :
  NoDup (map fst t) -> (List.length (values_of k t) <= 1)%nat.
Proof.
  intros Hnd. destruct (in_dec string_dec k (map fst t)) as [Hin | Hout].
  - destruct (in_keys_value _ _ Hin) as [v Hv].
    rewrite (values_of_present _ _ _ Hnd Hv). simpl. lia.
  - rewrite (values_of_absent _ _ Hout). simpl. lia.
Qed.

Lemma join_key_sums k (cd pd : list (string * Z)) :
  (List.length (values_of k cd) <= 1)%nat ->
  (List.length (values_of k pd) <= 1)%nat ->
  sum (map (fun row => fillna (snd (fst row))) (join_key k cd pd))
    = sum (values_of k cd)
  /\ sum (map (fun row => fillna (snd row)) (join_key k cd pd))
     = sum (values_of k pd).
Proof.
  unfold join_key.
  destruct (values_of k cd) as [| l [| l' ls]];
    destruct (values_of k pd) as [| r [| r' rs]];
    simpl; intros H1 H2; try lia; split; lia.
Qed.

Lemma merged_rows_sums (cd pd : list (string * Z)) :
  NoDup (map fst cd) -> NoDup (map fst pd) ->
  sum (map snd (merged_rows cd pd)) = sum (map snd cd)
  /\ sum (map (fun r => snd (fst r)) (merged_rows cd pd)) = sum (map snd pd).
Proof.
  intros Hc Hp. unfold merged_rows, merge_outer. rewrite !map_map.
  set (keys := sort_keys (nodup string_dec (map fst cd ++ map fst pd))).
  assert (Hnd : NoDup keys).
  { apply (Permutation_NoDup (Permutation_sym (sort_keys_perm _))).
    apply NoDup_nodup. }
  assert (Hin : forall k, In k (map fst cd ++ map fst pd) -> In k keys).
  { intros k Hk. apply (Permutation_in _ (Permutation_sym (sort_keys_perm _))).
    now apply nodup_In. }
  split.
  - rewrite <- (sum_by_key cd Hnd) by (intros k Hk; apply Hin, in_or_app; now left).
    transitivity (sum (map (fun row => fillna (snd (fst row)))
                           (flat_map (fun k => join_key k cd pd) keys))).
    { f_equal. apply map_ext. intros [[k l] r]. reflexivity. }
    rewrite sum_flat_map. f_equal. apply map_ext. intros k.
    apply (join_key_sums k cd pd); now apply values_of_short.
  - rewrite <- (sum_by_key pd Hnd) by (intros k Hk; apply Hin, in_or_app; now right).
    transitivity (sum (map (fun row => fillna (snd row))
                           (flat_map (fun k => join_key k cd pd) keys))).
    { f_equal. apply map_ext. intros [[k l] r]. reflexivity. }
    rewrite sum_flat_map. f_equal. apply map_ext. intros k.
    apply (join_key_sums k cd pd); now apply values_of_short.
Qed.


Lemma compare_totals joined :
  current_total (compare joined) = sum (map snd joined)
  /\ previous_total (compare joined) = sum (map (fun r => snd (fst r)) joined).
Proof.
  unfold compare. cbn [current_total previous_total]. rewrite !map_map.
  split; f_equal; apply map_ext; intros [[k p] c]; reflexivity.
Qed.

(** X10. When no table repeats a category, the outer join of the YoY and
    January YoM blocks keeps the totals: the current total of the metric is
    the sum of the compared column of the current table and the previous
    total is the sum of the compared column of the previous year's table,
    whatever categories the two tables share. *)
Theorem join_preserves_totals :
  (forall current_data prev_data,
      NoDup (map fst current_data) -> NoDup (map fst prev_data) ->
      current_total (compare (merged_rows current_data prev_data))
        = sum (map snd current_data)
      /\ previous_total (compare (merged_rows current_data prev_data))
         = sum (map snd prev_data))
  /\ (forall w year tt vt sm df prev_df key current_data prev_data c,
         year_over_year w year tt vt sm df = Shown c ->
         get_data w (year - 1) tt vt = Ok prev_df ->
         column0 df = Ok key ->
         two_columns key (data_col sm df prev_df) df = Ok current_data ->
         two_columns key (data_col sm df prev_df) prev_df = Ok prev_data ->
         NoDup (map fst current_data) -> NoDup (map fst prev_data) ->
         current_total c = sum (map snd current_data)
         /\ previous_total c = sum (map snd prev_data)).
Proof.
  assert (Hpure : forall current_data prev_data,
    NoDup (map fst current_data) -> NoDup (map fst prev_data) ->
    current_total (compare (merged_rows current_data prev_data))
      = sum (map snd current_data)
    /\ previous_total (compare (merged_rows current_data prev_data))
       = sum (map snd prev_data)).
  { intros cd pd Hc Hp.
    destruct (compare_totals (merged_rows cd pd)) as [-> ->].
    now apply merged_rows_sums. }
  split; [exact Hpure |].
  intros w year tt vt sm df prev_df key cd pd c H Hprev Hkey Hcd Hpd Hc Hp.
  unfold year_over_year in H. cbv zeta in H.
  rewrite Hprev in H. cbn [bind] in H.
  destruct (negb (is_empty prev_df)); [| discriminate H].
  rewrite Hkey in H. cbn [bind] in H. rewrite Hcd in H. cbn [bind] in H.
  rewrite Hpd in H. cbn [bind catch] in H. injection H as <-.
  now apply Hpure.
Qed.

Lemma join_preserves_totals_witness :
  current_total (compare (merged_rows [("BUS"%string, 250); ("CAR"%string, 1250)]
                                      [("CAR"%string, 11); ("VAN"%string, 72)]))
    = sum (map snd [("BUS"%string, 250); ("CAR"%string, 1250)])
  /\ previous_total (compare (merged_rows [("BUS"%string, 250); ("CAR"%string, 1250)]
                                          [("CAR"%string, 11); ("VAN"%string, 72)]))
     = sum (map snd [("CAR"%string, 11); ("VAN"%string, 72)]).
Proof.
  apply (proj1 join_preserves_totals).
  - apply distinct_NoDup. reflexivity.
  - apply distinct_NoDup. reflexivity.
Defined.

(* ===================================================================== *)
(** ** Quarters and months *)
(* ===================================================================== *)

Lemma nth_seq_all (vs : list Z) :
  forall s, map (fun j => nth (j - s) vs 0) (seq s (List.length vs)) = vs.
Proof.
  induction vs as [| v vs IH]; intros s; [reflexivity |].
  cbn [List.length seq map]. rewrite Nat.sub_diag. cbn [nth]. f_equal.
  rewrite <- (IH (S s)) at 2. apply map_ext_in. intros j Hj. apply in_seq in Hj.
  replace (j - s)%nat with (S (j - S s)) by lia. reflexivity.
Qed.

Section QuarterTotals.

Variable df : DataFrame.
Hypothesis df_normalized : normalized df = true.

(** The sum over the rows of the sums of some months. *)
Let rows_total (ms : list string) : Z :=
  sum (map (fun j => sum (map (fun m => month_value df m j) ms))
           (seq 0 (n_rows df))).

Lemma rows_total_nil : rows_total [] = 0.
Proof.
  unfold rows_total. induction (seq 0 (n_rows df)) as [| j l IH]; simpl;
    [reflexivity | exact IH].
Qed.

Lemma rows_total_app a b : rows_total (a ++ b) = rows_total a + rows_total b.
Proof.
  unfold rows_total. rewrite <- sum_map_add. f_equal. apply map_ext.
  intros j. now rewrite map_app, sum_app.
Qed.

Lemma rows_total_months ms :
  (forall m, In m ms -> In m month_names /\ has_column m df = true) ->
  rows_total ms = sum (map (month_total df) ms).
Proof.
  induction ms as [| m ms IH]; intros Hms; [apply rows_total_nil |].
  change (m :: ms) with ([m] ++ ms). rewrite rows_total_app, map_app, sum_app.
  rewrite IH by (intros m' Hin; apply Hms; now right). f_equal.
  destruct (Hms m (or_introl eq_refl)) as [Hm Hhas].
  destruct (@month_column df df_normalized m Hm Hhas) as [vs [Hvs Hlen]].
  unfold rows_total, month_total. cbn [map sum fold_right]. rewrite Hvs, Z.add_0_r.
  f_equal. rewrite <- Hlen. rewrite <- (nth_seq_all vs 0) at 2.
  apply map_ext. intros j. unfold month_value. rewrite Hvs, Z.add_0_r, Nat.sub_0_r.
  reflexivity.
Qed.

Lemma included_quarters_total :
  sum (map (fun q => sum (snd q)) (included_quarters df))
  = rows_total (filter (fun m => has_column m df) month_names).
Proof.
  unfold included_quarters. rewrite map_map. cbn [snd].
  assert (Hall : forall qs : list (string * list string),
    sum (map (fun q => rows_total (filter (fun m => has_column m df) (snd q)))
             (filter (fun q => existsb (fun m => has_column m df) (snd q)) qs))
    = rows_total (filter (fun m => has_column m df) (List.concat (map snd qs)))).
  { induction qs as [| q qs IH]; [symmetry; apply rows_total_nil |].
    cbn [filter map List.concat]. rewrite filter_app, rows_total_app, <- IH.
    destruct (existsb (fun m => has_column m df) (snd q)) eqn:E.
    - reflexivity.
    - apply existing_months_nil in E. rewrite E, rows_total_nil. reflexivity. }
  exact (Hall quarter_months).
Qed.

End QuarterTotals.

(** X11. The quarters lose and repeat nothing: on a normalized frame the
    totals of the quarter columns the QoQ block computes add up to the
    totals of the month columns the frame has. *)
Theorem quarters_conserve_months (df : DataFrame) (qs : list (string * list Z)) :
  normalized df = true ->
  quarter_columns quarter_months df = Ok qs ->
  sum (map (fun q => sum (snd q)) qs)
  = sum (map (month_total df) (filter (fun m => has_column m df) month_names)).
Proof.
  intros Hn Hqs. rewrite (@quarter_columns_spec df Hn) in Hqs. injection Hqs as <-.
  rewrite included_quarters_total.
  apply rows_total_months; [exact Hn |].
  intros m Hin. apply filter_In in Hin. exact Hin.
Qed.

Lemma quarters_conserve_months_witness :
  sum (map (fun q => sum (snd q)) [("Q1 (Jan-Mar)"%string, [3; 6]);
                                   ("Q2 (Apr-Jun)"%string, [3; 6]);
                                   ("Q3 (Jul-Sep)"%string, [3; 6]);
                                   ("Q4 (Oct-Dec)"%string, [2; 54])])
  = sum (map (month_total Sample.frame_2024)
             (filter (fun m => has_column m Sample.frame_2024) month_names)).
Proof.
  apply (@quarters_conserve_months Sample.frame_2024); reflexivity.
Defined.


(* ===================================================================== *)
(** ** Landmarks of the change column *)
(* ===================================================================== *)

(** The float nearest to a rational does not depend on how the rational
    is written. *)
Lemma binary64_compat (q q' : Q) :
  (q == q')%Q -> Pd.binary64 q = Pd.binary64 q'.
Proof.
  intros H. unfold Pd.binary64. rewrite (Qred_complete _ _ H). reflexivity.
Qed.

(** X12. Landmarks of a row with a positive baseline: an unchanged value
    shows 0.00%, a doubled value 100.00%, and a value fallen to nothing
    -100.00%. *)
Theorem change_cell_landmarks (p : Z) :
  0 < p ->
  change_cell p p = "0.00%"%string
  /\ change_cell (2 * p) p = "100.00%"%string
  /\ change_cell 0 p = "-100.00%"%string.
Proof.
  intros Hp. destruct p as [| q | q]; try lia. clear Hp.
  unfold change_cell. cbn [Z.eqb negb]. unfold format_pct, pct_change.
  split; [| split].
  - rewrite Z.sub_diag.
    rewrite (@binary64_compat (inject_Z 0 / inject_Z (Zpos q)) 0)
      by (unfold Qeq; cbn; lia).
    reflexivity.
  - replace (2 * Zpos q - Zpos q) with (Zpos q) by lia.
    rewrite (@binary64_compat (inject_Z (Zpos q) / inject_Z (Zpos q)) 1)
      by (unfold Qeq; cbn; lia).
    reflexivity.
  - change (0 - Zpos q) with (Zneg q).
    rewrite (@binary64_compat (inject_Z (Zneg q) / inject_Z (Zpos q)) (-1))
      by (unfold Qeq; cbn; lia).
    reflexivity.
Qed.

Lemma change_cell_landmarks_witness :
  change_cell 40 40 = "0.00%"%string
  /\ change_cell (2 * 40) 40 = "100.00%"%string
  /\ change_cell 0 40 = "-100.00%"%string.
Proof. apply (@change_cell_landmarks 40). lia. Defined.


(* ===================================================================== *)
(** ** The month box *)
(* ===================================================================== *)

Lemma month_index_of_prefix (k : nat) (m : string) :
  In m (firstn k month_names) ->
  exists i, Py.index m month_names = Ok i /\ (i < k)%nat.
Proof.
  unfold month_names.
  do 12 (destruct k as [| k];
         [cbn [firstn In]; intros H;
          repeat (destruct H as [<- | H]; [eexists; split; [reflexivity | lia] |]);
          contradiction |]).
  rewrite firstn_all2 by (simpl; lia). cbn [In]. intros H.
  repeat (destruct H as [<- | H]; [eexists; split; [reflexivity | lia] |]).
  contradiction.
Qed.

(** X13. The month box offers "All" first and, after it, only month
    names, so that looking a selected month up in the list of months never
    fails; for the current year the months offered stop at the current
    month. *)
Theorem month_box_options (current_year current_month selected_year : Z) :
  nth_error (available_months current_year current_month selected_year) 0
    = Some "All"%string
  /\ forall m,
      In m (available_months current_year current_month selected_year) ->
      m = "All"%string
      \/ exists i,
          Py.index m month_names = Ok i
          /\ (selected_year = current_year -> Z.of_nat i < current_month).
Proof.
  unfold available_months. split.
  - destruct (selected_year =? current_year); reflexivity.
  - intros m Hin. destruct (selected_year =? current_year) eqn:Hy.
    + cbn [app In] in Hin. destruct Hin as [<- | Hin]; [now left |]. right.
      destruct (month_index_of_prefix _ _ Hin) as [i [Hi Hlt]].
      exists i. split; [exact Hi |]. intros _. lia.
    + cbn [app In] in Hin. destruct Hin as [<- | Hin]; [now left |]. right.
      rewrite <- (firstn_all month_names) in Hin.
      destruct (month_index_of_prefix _ _ Hin) as [i [Hi _]].
      exists i. split; [exact Hi |]. intros ->.
      rewrite Z.eqb_refl in Hy. discriminate.
Qed.

Lemma month_box_options_witness :
  "Mar"%string = "All"%string
  \/ exists i,
      Py.index "Mar" month_names = Ok i
      /\ (2025 = 2025 -> Z.of_nat i < 8).
Proof.
  apply (proj2 (month_box_options 2025 8 2025)).
  simpl. tauto.
Defined.

(* ===================================================================== *)
(** ** Scraped files and the files the dashboard reads *)
(* ===================================================================== *)

(** X14. The file a scraping script saves is the file the dashboard reads
    for the matching selection: with the separator [/], the path of
    [get_data] is the path the vehicle-class script writes for each of its
    three vehicle groups, and the path the two month-wise scripts write,
    for every year; and every vehicle group of the script is read by one
    vehicle type of the dashboard. *)
Theorem scraped_files_are_read :
  (forall year v,
      html_path year VehicleClass (sidebar_vehicle_type VehicleClass v)
      = Scraper.file_path "/"
          (Scraper.vehicle_class_fname (scraped_label v) (Py.str_of_int year)))
  /\ (forall year v,
         html_path year VehicleCategoryMonthWise
           (sidebar_vehicle_type VehicleCategoryMonthWise v)
         = Scraper.file_path "/"
             (Scraper.vehicle_category_month_wise_fname (Py.str_of_int year)))
  /\ (forall year v,
         html_path year ManufacturerMonthWise
           (sidebar_vehicle_type ManufacturerMonthWise v)
         = Scraper.file_path "/"
             (Scraper.manufacturer_month_wise_fname (Py.str_of_int year)))
  /\ (forall label, In label Scraper.vehicle_types ->
                    exists v, scraped_label v = label).
Proof.
  split; [| split; [| split]].
  - intros year v. unfold html_path, Scraper.file_path, Scraper.vehicle_class_fname.
    generalize (Py.str_of_int year). intros y. destruct v; reflexivity.
  - intros year v. unfold html_path, Scraper.file_path,
      Scraper.vehicle_category_month_wise_fname.
    generalize (Py.str_of_int year). intros y. reflexivity.
  - intros year v. unfold html_path, Scraper.file_path,
      Scraper.manufacturer_month_wise_fname.
    generalize (Py.str_of_int year). intros y. reflexivity.
  - intros label H. unfold Scraper.vehicle_types in H. simpl in H.
    destruct H as [<- | [<- | [<- | []]]];
      [exists TwoWheeler | exists ThreeWheeler | exists FourWheeler]; reflexivity.
Qed.

Lemma scraped_files_are_read_witness :
  exists v, scraped_label v = "FOUR WHEELER"%string.
Proof.
  apply (proj2 (proj2 (proj2 scraped_files_are_read))).
  simpl. tauto.
Defined.

(* ===================================================================== *)
(** ** The monthly block on frames of [get_data] *)
(* ===================================================================== *)

Lemma has_column_nonempty name (df : DataFrame) :
  has_column name df = true -> df <> [].
Proof. intros H ->. discriminate H. Qed.

Lemma month_not_key tt m : In m month_names -> m <> key_name tt.
Proof.
  intros Hin ->. apply mem_In in Hin.
  destruct (key_name_facts tt) as [Hk _]. rewrite Hin in Hk. discriminate.
Qed.

(** X15. The monthly block does not end in its error box on a frame of
    [get_data] that has rows, for a month of the month box: for a month
    after January it shows the MoM table or the MoM notice, and for
    January, when the previous year's frame is loaded and both frames have
    text keys, the YoM table or the YoM notice. *)
Theorem monthly_comparison_never_fails (w : World) year tt vt m i df :
  named_selection tt vt = true ->
  get_data w year tt vt = Ok df ->
  is_empty df = false ->
  Py.index m month_names = Ok i ->
  (i = 0%nat ->
   text_keys df = true
   /\ exists prev_df, get_data w (year - 1) tt vt = Ok prev_df
                      /\ (is_empty prev_df = false -> text_keys prev_df = true)) ->
  (exists c, monthly_comparison w year tt vt m df = Shown c)
  \/ monthly_comparison w year tt vt m df
     = Info (if Nat.eqb i 0 then YoMDataNotAvailable else MoMDataNotAvailable).
Proof.
  intros Hnamed Hget Hrows Hidx Hprev.
  pose proof (@is_empty_false_nonempty df Hrows) as Hne.
  pose proof (get_data_table_frame _ _ _ _ Hnamed Hget Hne) as Hf.
  pose proof (index_nth_error _ _ Hidx) as Hnth.
  assert (Hm : In m month_names) by (eapply nth_error_In; eauto).
  unfold monthly_comparison. rewrite Hidx. cbn [bind].
  rewrite (@frame_key tt df Hf). cbn [bind].
  destruct i as [| j].
  - assert (m = "Jan"%string) as -> by (simpl in Hnth; now injection Hnth).
    destruct (Hprev eq_refl) as (_ & prev_df & Hp & _).
    change (0 <? 0)%nat with false. cbv iota zeta. rewrite Hp. cbn [bind].
    destruct (has_column "Jan" df && has_column "Dec" prev_df)%bool eqn:Hboth;
      [| right; reflexivity].
    apply andb_prop in Hboth. destruct Hboth as [Hjan Hdec]. left.
    pose proof (get_data_table_frame _ _ _ _ Hnamed Hp
                  (@has_column_nonempty "Dec"%string prev_df Hdec)) as Hpf.
    destruct (@frame_two_columns tt df "Jan"%string Hf Hjan) as [cd ->];
      [apply month_not_key; exact Hm |].
    destruct (@frame_two_columns tt prev_df "Dec"%string Hpf Hdec) as [pd ->];
      [apply month_not_key; simpl; tauto |].
    cbn [bind catch]. eauto.
  - change (0 <? S j)%nat with true. cbv iota zeta.
    replace (S j - 1)%nat with j by lia.
    assert (Hj : (j < List.length month_names)%nat).
    { apply Nat.lt_succ_l. apply nth_error_Some. rewrite Hnth. discriminate. }
    assert (Hpm : In (nth j month_names ""%string) month_names) by now apply nth_In.
    destruct (has_column (nth j month_names ""%string) df && has_column m df)%bool
      eqn:Hboth; [| right; reflexivity].
    apply andb_prop in Hboth. destruct Hboth as [Hp Hc]. left.
    destruct (@frame_key_cells tt df Hf) as (cells & -> & _). cbn [bind].
    destruct (@frame_int_column tt df Hf _ Hp (@month_not_key tt _ Hpm)) as [prev ->].
    destruct (@frame_int_column tt df Hf _ Hc (@month_not_key tt _ Hm)) as [curr ->].
    cbn [bind catch]. eauto.
Qed.

Lemma monthly_comparison_never_fails_witness :
  (exists c, monthly_comparison Sample.world 2025 VehicleCategoryMonthWise None
               "Jan" Sample.frame_2025 = Shown c)
  \/ monthly_comparison Sample.world 2025 VehicleCategoryMonthWise None
       "Jan" Sample.frame_2025
     = Info (if Nat.eqb 0 0 then YoMDataNotAvailable else MoMDataNotAvailable).
Proof.
  apply (@monthly_comparison_never_fails Sample.world 2025 VehicleCategoryMonthWise
           None "Jan"%string 0%nat Sample.frame_2025).
  - reflexivity.
  - reflexivity.
  - reflexivity.
  - reflexivity.
  - intros _. split; [reflexivity |].
    exists Sample.frame_2024. split; reflexivity.
Defined.


(* ===================================================================== *)
(** ** The cells of a numeric column *)
(* ===================================================================== *)
















(* ===================================================================== *)
(** ** The change columns of the QoQ table *)
(* ===================================================================== *)




(** A full year: four quarters and three change columns, the last quarter
    set against the third. *)
Example full_year_quarters :
  exists t,
    quarter_over_quarter Sample.frame_2024 = Shown t
    /\ quarters t = [("Q1 (Jan-Mar)", [3; 6]); ("Q2 (Apr-Jun)", [3; 6]);
                     ("Q3 (Jul-Sep)", [3; 6]); ("Q4 (Oct-Dec)", [2; 54])]%string
    /\ qoq_changes t
       = [("Q2 (Apr-Jun) vs Q1 (Jan-Mar) QoQ%", ["0.00%"; "0.00%"]);
          ("Q3 (Jul-Sep) vs Q2 (Apr-Jun) QoQ%", ["0.00%"; "0.00%"]);
          ("Q4 (Oct-Dec) vs Q3 (Jul-Sep) QoQ%", ["-33.33%"; "800.00%"])]%string.
Proof. eexists. repeat split. Qed.
